(** * UsdConnectionHandler: connection editing between UFE attributes and USD

    Shallow embedding of [lib/mayaUsd/ufe/UsdConnectionHandler.cpp].

    The handler is glue code: every mutation of the scene description goes
    through the USD shading API (UsdShadeConnectableAPI, UsdShadeMaterial,
    SdrRegistry).  Those collaborators are kept behind an interface
    ([UsdApi]); the functions of the source file are written once, over that
    interface, in a small state monad that threads the stage and the
    diagnostic channel.  Properties that only depend on the control flow of
    the handler are proved for every implementation of the interface.
    Properties that depend on what the USD calls do are proved on a
    reference implementation of the interface ([RefUsd]), a finite map from
    attribute paths to attribute specs. *)

From stdpp Require Import base option list strings gmap fin_maps.

Set Default Proof Using "Type".

(** ** Plain data shared by every implementation *)

(** [Ufe::Rtid], the run-time identifier carried by a scene item. *)
Definition Rtid := nat.

(** [TfToken], an interned string. *)
Definition TfToken := string.

(** [UsdShadeAttributeType] (usdShade/utils.h). *)
Inductive UsdShadeAttributeType :=
  | Invalid
  | Input
  | Output.

#[global] Instance UsdShadeAttributeType_eq_dec : EqDecision UsdShadeAttributeType.
Proof. solve_decision. Defined.

(** The tokens of [UsdShadeTokens] the handler refers to. *)
Module UsdShadeTokens.
Definition surface : TfToken := "surface".
Definition volume : TfToken := "volume".
Definition displacement : TfToken := "displacement".
Definition universalRenderContext : TfToken := "".
End UsdShadeTokens.

(** ** The USD collaborators

    One field per USD (or mayaUsd global) entry point used by the handler.
    Calls that author scene description take the stage and return the new
    one; const queries only read it. *)
Class UsdApi := {
  Stage : Type;
  SdfPath : Type;
  SdfPath_eq_dec :: EqDecision SdfPath;
  UsdPrim : Type;
  PxrUsdAttribute : Type;
  SdfValueTypeName : Type;
  UsdShadeInput : Type;
  UsdShadeOutput : Type;
  SdrShaderNode : Type;

  (** [getUsdRunTimeId()] of mayaUsd/ufe/Global.h. *)
  getUsdRunTimeId : Rtid;

  (** [UsdAttribute::GetPath] and [UsdAttribute::GetConnections]. *)
  GetPath : PxrUsdAttribute → SdfPath;
  GetConnections : Stage → PxrUsdAttribute → list SdfPath;

  (** [UsdShadeUtils::GetBaseNameAndType]. *)
  GetBaseNameAndType : TfToken → TfToken * UsdShadeAttributeType;

  (** [UsdShadeConnectableAPI(prim).CreateInput / CreateOutput]. *)
  CreateInput : UsdPrim → TfToken → SdfValueTypeName → Stage → UsdShadeInput * Stage;
  CreateOutput : UsdPrim → TfToken → SdfValueTypeName → Stage → UsdShadeOutput * Stage;

  (** The overloads of [UsdShadeConnectableAPI::ConnectToSource]: destination
      socket first, source socket second. *)
  ConnectToSource :
    UsdShadeInput + UsdShadeOutput → UsdShadeInput + UsdShadeOutput → Stage → bool * Stage;

  (** [UsdShadeConnectableAPI::DisconnectSource(shadingAttr, sourceAttr)]. *)
  DisconnectSource : PxrUsdAttribute → PxrUsdAttribute → Stage → bool * Stage;

  (** [bool(UsdShadeMaterial(prim))]. *)
  IsMaterial : Stage → UsdPrim → bool;
  (** [UsdShadeMaterial(prim).Create{Surface,Volume,Displacement}Output]. *)
  CreateSurfaceOutput : UsdPrim → TfToken → Stage → UsdShadeOutput * Stage;
  CreateVolumeOutput : UsdPrim → TfToken → Stage → UsdShadeOutput * Stage;
  CreateDisplacementOutput : UsdPrim → TfToken → Stage → UsdShadeOutput * Stage;

  (** [UsdShadeShader(prim).GetIdAttr().Get(&id)], the token left in [id]. *)
  GetShaderId : Stage → UsdPrim → TfToken;
  (** [SdrRegistry::GetInstance().GetShaderNodeByIdentifier]. *)
  GetShaderNodeByIdentifier : TfToken → option SdrShaderNode;
  (** [SdrShaderNode::GetSourceType]. *)
  GetSourceType : SdrShaderNode → TfToken;
}.

(** ** The state the handler runs in *)

(** What a call can observe and change: the stage being edited and the
    messages sent to the diagnostic channel ([TF_RUNTIME_ERROR] is fire and
    forget: it records the message and the call goes on). *)
Record World `{UsdApi} := mkWorld {
  stage : Stage;
  diagnostics : list string;
}.
Arguments mkWorld {_} _ _.

(** State monad over [World]. *)
Definition M `{UsdApi} (A : Type) : Type := World → A * World.

Definition ret `{UsdApi} {A} (a : A) : M A := λ w, (a, w).
Definition bind `{UsdApi} {A B} (m : M A) (k : A → M B) : M B :=
  λ w, let '(a, w') := m w in k a w'.

Declare Scope handler_scope.
Delimit Scope handler_scope with handler.
Notation "x <- m ;; k" := (bind m (λ x, k))
  (at level 100, m at next level, right associativity) : handler_scope.
Notation "m ;; k" := (bind m (λ _, k))
  (at level 100, right associativity) : handler_scope.
Local Open Scope handler_scope.

Section Handler.
Context `{api : UsdApi}.

(** A const query of the stage. *)
Definition readStage {A} (f : Stage → A) : M A :=
  λ w, (f (stage w), w).

(** A call that authors scene description. *)
Definition editStage {A} (f : Stage → A * Stage) : M A :=
  λ w, let '(a, st) := f (stage w) in (a, mkWorld st (diagnostics w)).

Definition TF_RUNTIME_ERROR (msg : string) : M unit :=
  λ w, (tt, mkWorld (stage w) (diagnostics w ++ [msg])).

(** *** UFE objects *)

Record UfeSceneItem := {
  runTimeId : Rtid;
  (** [Ufe::PathString::string(item->path())] *)
  path : string;
}.

(** The mayaUsd [UsdAttribute] view of an attribute (UsdAttribute.h): the
    accessors the handler calls.  [usdAttributeType] is asked while the
    stage is being edited, so it reads the stage. *)
Record UsdAttribute := {
  usdPrim : UsdPrim;
  usdAttribute : PxrUsdAttribute;
  usdAttributeType : Stage → SdfValueTypeName;
}.

(** A [Ufe::Attribute] object.  [asUsdAttribute] is what
    [dynamic_cast<UsdAttribute*>] yields on it: the same object seen through
    its mayaUsd base class, or nothing when the object is of another class. *)
Record UfeAttribute := {
  sceneItem : UfeSceneItem;
  name : string;
  asUsdAttribute : option UsdAttribute;
}.

(** [Ufe::Attribute::Ptr]: a shared pointer, possibly null. *)
Definition UfeAttributePtr := option UfeAttribute.

(** *** usdAttrFromUfeAttr *)

Definition invalidAttributeMsg : string := "Invalid attribute.".

Definition invalidRuntimeMsg (attr : UfeAttribute) : string :=
  "Invalid runtime identifier for the attribute '" +:+ name attr
    +:+ "' in the node '" +:+ path (sceneItem attr) +:+ "'.".

Definition usdAttrFromUfeAttr (attr : UfeAttributePtr) : M (option UsdAttribute) :=
  match attr with
  | None =>
      TF_RUNTIME_ERROR invalidAttributeMsg ;;
      ret None
  | Some a =>
      if decide (runTimeId (sceneItem a) ≠ getUsdRunTimeId) then
        TF_RUNTIME_ERROR (invalidRuntimeMsg a) ;;
        ret None
      else
        ret (asUsdAttribute a)
  end.

(** What the coercion returns does not depend on the world: the pointer is
    non-null, the tag is the USD one and the dynamic cast goes through. *)
Definition coerced (attr : UfeAttributePtr) : option UsdAttribute :=
  match attr with
  | None => None
  | Some a =>
      if decide (runTimeId (sceneItem a) = getUsdRunTimeId)
      then asUsdAttribute a else None
  end.

(** The diagnostic the coercion reports, if any. *)
Definition coercionDiagnostic (attr : UfeAttributePtr) : list string :=
  match attr with
  | None => [invalidAttributeMsg]
  | Some a =>
      if decide (runTimeId (sceneItem a) = getUsdRunTimeId)
      then [] else [invalidRuntimeMsg a]
  end.

(** *** isConnected *)

(** The loop over [connectedAttrs]. *)
Fixpoint pathAmong (srcPath : SdfPath) (connectedAttrs : list SdfPath) : bool :=
  match connectedAttrs with
  | [] => false
  | p :: rest => if decide (p = srcPath) then true else pathAmong srcPath rest
  end.

Definition isConnected (srcUsdAttr dstUsdAttr : PxrUsdAttribute) : M bool :=
  connectedAttrs <- readStage (λ st, GetConnections st dstUsdAttr) ;;
  ret (pathAmong (GetPath srcUsdAttr) connectedAttrs).

(** *** createConnection *)

Definition nodeDefNotFoundMsg (srcInfoId : TfToken) (nodePath : string) : string :=
  "Could not find node definition '" +:+ srcInfoId +:+ "' for node '" +:+ nodePath +:+ "'.".

(** Lines 156-158: the render context of a shader definition. *)
Definition renderContextOf (srcShaderNodeDef : SdrShaderNode) : TfToken :=
  if decide (GetSourceType srcShaderNodeDef = "glslfx")
  then UsdShadeTokens.universalRenderContext
  else GetSourceType srcShaderNodeDef.

(** Lines 138-140, without the material test. *)
Definition isTerminalName (dstBaseName : TfToken) : bool :=
  bool_decide (dstBaseName = UsdShadeTokens.surface)
  || bool_decide (dstBaseName = UsdShadeTokens.volume)
  || bool_decide (dstBaseName = UsdShadeTokens.displacement).

(** Lines 159-165: the terminal output of the material for that name. *)
Definition createTerminalOutput (dstPrim : UsdPrim) (dstBaseName renderContext : TfToken)
  : Stage → UsdShadeOutput * Stage :=
  if decide (dstBaseName = UsdShadeTokens.surface) then
    CreateSurfaceOutput dstPrim renderContext
  else if decide (dstBaseName = UsdShadeTokens.volume) then
    CreateVolumeOutput dstPrim renderContext
  else
    CreateDisplacementOutput dstPrim renderContext.

Definition createConnection (srcAttr dstAttr : UfeAttributePtr) : M bool :=
  srcUsdAttr <- usdAttrFromUfeAttr srcAttr ;;
  dstUsdAttr <- usdAttrFromUfeAttr dstAttr ;;
  match srcAttr, dstAttr, srcUsdAttr, dstUsdAttr with
  | Some srcA, Some dstA, Some src, Some dst =>
      connected <- isConnected (usdAttribute src) (usdAttribute dst) ;;
      if connected then ret false else
      let '(srcBaseName, srcAttrType) := GetBaseNameAndType (name srcA) in
      let '(dstBaseName, dstAttrType) := GetBaseNameAndType (name dstA) in
      if decide (srcAttrType = Input) then
        srcType <- readStage (usdAttributeType src) ;;
        srcInput <- editStage (CreateInput (usdPrim src) srcBaseName srcType) ;;
        if decide (dstAttrType = Input) then
          dstType <- readStage (usdAttributeType dst) ;;
          dstInput <- editStage (CreateInput (usdPrim dst) dstBaseName dstType) ;;
          editStage (ConnectToSource (inl dstInput) (inl srcInput))
        else
          dstType <- readStage (usdAttributeType dst) ;;
          dstOutput <- editStage (CreateOutput (usdPrim dst) dstBaseName dstType) ;;
          editStage (ConnectToSource (inr dstOutput) (inl srcInput))
      else
        srcType <- readStage (usdAttributeType src) ;;
        srcOutput <- editStage (CreateOutput (usdPrim src) srcBaseName srcType) ;;
        if decide (dstAttrType = Input) then
          dstType <- readStage (usdAttributeType dst) ;;
          dstInput <- editStage (CreateInput (usdPrim dst) dstBaseName dstType) ;;
          editStage (ConnectToSource (inl dstInput) (inr srcOutput))
        else
          dstMaterial <- readStage (λ st, IsMaterial st (usdPrim dst)) ;;
          if dstMaterial && isTerminalName dstBaseName then
            srcInfoId <- readStage (λ st, GetShaderId st (usdPrim src)) ;;
            match GetShaderNodeByIdentifier srcInfoId with
            | None =>
                TF_RUNTIME_ERROR
                  (nodeDefNotFoundMsg srcInfoId (path (sceneItem srcA))) ;;
                ret false
            | Some srcShaderNodeDef =>
                dstOutput <- editStage (createTerminalOutput (usdPrim dst) dstBaseName
                                          (renderContextOf srcShaderNodeDef)) ;;
                editStage (ConnectToSource (inr dstOutput) (inr srcOutput))
            end
          else
            dstType <- readStage (usdAttributeType dst) ;;
            dstOutput <- editStage (CreateOutput (usdPrim dst) dstBaseName dstType) ;;
            editStage (ConnectToSource (inr dstOutput) (inr srcOutput))
  | _, _, _, _ => ret false
  end.

(** *** deleteConnection *)

Definition deleteConnection (srcAttr dstAttr : UfeAttributePtr) : M bool :=
  srcUsdAttr <- usdAttrFromUfeAttr srcAttr ;;
  dstUsdAttr <- usdAttrFromUfeAttr dstAttr ;;
  match srcUsdAttr, dstUsdAttr with
  | Some src, Some dst =>
      connected <- isConnected (usdAttribute src) (usdAttribute dst) ;;
      if negb connected then ret false else
      editStage (DisconnectSource (usdAttribute dst) (usdAttribute src))
  | _, _ => ret false
  end.

(** *** Vocabulary for the statements *)

(** A reference the coercion rejects with a diagnostic: null, or tagged
    with another run time. *)
Definition nullOrForeign (attr : UfeAttributePtr) : Prop :=
  match attr with
  | None => True
  | Some a => runTimeId (sceneItem a) ≠ getUsdRunTimeId
  end.

(** A call returned false and left the stage as it was. *)
Definition refused (w : World) (r : bool * World) : Prop :=
  r.1 = false ∧ stage r.2 = stage w.

(** *** The algorithm of createConnection as its contract words it

    These definitions do not come from the code but from the four steps of
    the handler's contract: decode the names, ensure the source socket,
    materialize the destination socket for the pair of directions, connect
    and return what the connect returned.  [createConnection_steps] compares
    them with the code. *)

Definition ShadeSocket : Type := UsdShadeInput + UsdShadeOutput.

(** Step 2 for the source: an Input socket for an Input, an Output socket
    otherwise. *)
Definition sourceSocket (src : UsdAttribute) (baseName : TfToken)
    (direction : UsdShadeAttributeType) (st : Stage) : ShadeSocket * Stage :=
  match direction with
  | Input =>
      let r := CreateInput (usdPrim src) baseName (usdAttributeType src st) st in
      (inl r.1, r.2)
  | _ =>
      let r := CreateOutput (usdPrim src) baseName (usdAttributeType src st) st in
      (inr r.1, r.2)
  end.

(** The terminal case of step 3: an Output into one of the three terminals
    of a material, from a source that is not an Input. *)
Definition terminalCase (srcDirection dstDirection : UsdShadeAttributeType)
    (dst : UsdAttribute) (dstBaseName : TfToken) (st : Stage) : bool :=
  bool_decide (srcDirection ≠ Input) && bool_decide (dstDirection ≠ Input)
  && IsMaterial st (usdPrim dst) && isTerminalName dstBaseName.

(** Step 3 for the destination; nothing when the terminal case cannot
    resolve the shader definition of the source. *)
Definition destinationSocket (srcDirection : UsdShadeAttributeType)
    (src dst : UsdAttribute) (baseName : TfToken)
    (direction : UsdShadeAttributeType) (st : Stage) : option (ShadeSocket * Stage) :=
  if terminalCase srcDirection direction dst baseName st then
    match GetShaderNodeByIdentifier (GetShaderId st (usdPrim src)) with
    | None => None
    | Some def =>
        let r := createTerminalOutput (usdPrim dst) baseName (renderContextOf def) st in
        Some (inr r.1, r.2)
    end
  else
    match direction with
    | Input =>
        let r := CreateInput (usdPrim dst) baseName (usdAttributeType dst st) st in
        Some (inl r.1, r.2)
    | _ =>
        let r := CreateOutput (usdPrim dst) baseName (usdAttributeType dst st) st in
        Some (inr r.1, r.2)
    end.

(** Step 4: connect, in the world the call started in. *)
Definition connectStep (dstSocket srcSocket : ShadeSocket) (st : Stage) (w : World)
  : bool * World :=
  let r := ConnectToSource dstSocket srcSocket st in
  (r.1, mkWorld r.2 (diagnostics w)).

End Handler.

(** ** A reference implementation of the USD interface

    A single-layer stage: prims with their schema type, and attribute specs
    with a value type, an authored token value and the list of connection
    paths.  Each operation follows the documented behaviour of the USD call
    it stands for; handles are paths, valid when the stage has a spec for
    them. *)
Module Ref.

(** An attribute path: the prim path and the property name. *)
Abbreviation Path := (string * string)%type.

Record AttrSpec := mkAttrSpec {
  typeName : string;
  tokenValue : TfToken;
  connectionPaths : list Path;
}.

Record RefStage := mkStage {
  (** prim path to schema type name *)
  primTypes : gmap string string;
  attrSpecs : gmap (string * string) AttrSpec;
}.

(** A shader definition of the registry: its declared source type. *)
Record ShaderNode := mkShaderNode { sourceType : TfToken }.

(** A shading socket wraps an attribute handle, invalid ([None]) when the
    attribute could not be created. *)
Definition Socket : Type := option Path.

Definition socketAttr (s : Socket + Socket) : option Path :=
  match s with inl a => a | inr a => a end.

(** [p] followed by the rest of [s], when [s] starts with [p]. *)
Fixpoint stripPrefix (p s : string) : option string :=
  match p, s with
  | EmptyString, _ => Some s
  | String c p', String d s' =>
      if decide (c = d) then stripPrefix p' s' else None
  | String _ _, EmptyString => None
  end.

(** [UsdShadeUtils::GetBaseNameAndType]: the namespace prefix decides. *)
Definition getBaseNameAndType (fullName : TfToken) : TfToken * UsdShadeAttributeType :=
  match stripPrefix "inputs:" fullName with
  | Some base => (base, Input)
  | None =>
      match stripPrefix "outputs:" fullName with
      | Some base => (base, Output)
      | None => (fullName, Invalid)
      end
  end.

Definition getConnections (st : RefStage) (a : Path) : list Path :=
  match attrSpecs st !! a with
  | Some spec => connectionPaths spec
  | None => []
  end.

(** Get the attribute [attrName] of [prim], creating it with type [ty] and
    no connection when the prim has none; an invalid prim has no
    attributes and takes none. *)
Definition ensureAttr (prim attrName ty : string) (st : RefStage) : Socket * RefStage :=
  match primTypes st !! prim with
  | None => (None, st)
  | Some _ =>
      match attrSpecs st !! (prim, attrName) with
      | Some _ => (Some (prim, attrName), st)
      | None =>
          (Some (prim, attrName),
           mkStage (primTypes st)
             (<[(prim, attrName) := mkAttrSpec ty "" []]> (attrSpecs st)))
      end
  end.

Definition createInput (prim : string) (baseName : TfToken) (ty : string) :=
  ensureAttr prim ("inputs:" +:+ baseName) ty.

Definition createOutput (prim : string) (baseName : TfToken) (ty : string) :=
  ensureAttr prim ("outputs:" +:+ baseName) ty.

(** [SdfPath::JoinIdentifier]. *)
Definition joinIdentifier (lhs rhs : string) : string :=
  if decide (lhs = "") then rhs
  else if decide (rhs = "") then lhs
  else lhs +:+ ":" +:+ rhs.

(** A terminal output of a material: [outputs:<renderContext>:<terminal>],
    of type token; the universal render context adds no namespace. *)
Definition createTerminal (terminal : TfToken) (prim : string) (renderContext : TfToken) :=
  createOutput prim (joinIdentifier renderContext terminal) "token".

(** Connecting replaces the connections of the destination by the path of
    the source; it fails on an invalid socket. *)
Definition connectToSource (dst src : Socket + Socket) (st : RefStage) : bool * RefStage :=
  match socketAttr dst, socketAttr src with
  | Some d, Some s =>
      match attrSpecs st !! d, attrSpecs st !! s with
      | Some spec, Some _ =>
          (true,
           mkStage (primTypes st)
             (<[d := mkAttrSpec (typeName spec) (tokenValue spec) [s]]> (attrSpecs st)))
      | _, _ => (false, st)
      end
  | _, _ => (false, st)
  end.

(** Disconnecting removes the path of a valid source from the connections
    of the destination, and clears them when the source handle is invalid;
    it fails on an invalid destination. *)
Definition disconnectSource (shadingAttr sourceAttr : Path) (st : RefStage) : bool * RefStage :=
  match attrSpecs st !! shadingAttr with
  | None => (false, st)
  | Some spec =>
      let remaining :=
        match attrSpecs st !! sourceAttr with
        | Some _ => filter (λ p, p ≠ sourceAttr) (connectionPaths spec)
        | None => []
        end in
      (true,
       mkStage (primTypes st)
         (<[shadingAttr := mkAttrSpec (typeName spec) (tokenValue spec) remaining]>
            (attrSpecs st)))
  end.

Definition isMaterial (st : RefStage) (prim : string) : bool :=
  bool_decide (primTypes st !! prim = Some "Material").

(** The token authored on [info:id], empty when there is none. *)
Definition getShaderId (st : RefStage) (prim : string) : TfToken :=
  match attrSpecs st !! (prim, "info:id") with
  | Some spec => tokenValue spec
  | None => ""
  end.

(** The implementation, for a given USD run-time identifier and a given
    content of the shader registry. *)
#[local] Instance RefUsd (usdRtid : Rtid) (registry : gmap string ShaderNode) : UsdApi := {|
  Stage := RefStage;
  SdfPath := Path;
  UsdPrim := string;
  PxrUsdAttribute := Path;
  SdfValueTypeName := string;
  UsdShadeInput := Socket;
  UsdShadeOutput := Socket;
  SdrShaderNode := ShaderNode;
  getUsdRunTimeId := usdRtid;
  GetPath := λ a, a;
  GetConnections := getConnections;
  GetBaseNameAndType := getBaseNameAndType;
  CreateInput := createInput;
  CreateOutput := createOutput;
  ConnectToSource := connectToSource;
  DisconnectSource := disconnectSource;
  IsMaterial := isMaterial;
  CreateSurfaceOutput := createTerminal UsdShadeTokens.surface;
  CreateVolumeOutput := createTerminal UsdShadeTokens.volume;
  CreateDisplacementOutput := createTerminal UsdShadeTokens.displacement;
  GetShaderId := getShaderId;
  GetShaderNodeByIdentifier := λ id, registry !! id;
  GetSourceType := sourceType;
|}.

(** The value type of the attribute at a path, empty when there is none. *)
Definition getTypeName (a : Path) (st : RefStage) : string :=
  match attrSpecs st !! a with
  | Some spec => typeName spec
  | None => ""
  end.

End Ref.

(** ** A small scene

    The scenarios of the handler on the reference implementation: a material
    with three shaders (one defined for the legacy source type, one for mdl,
    one whose identifier the registry does not know), two plain shading
    nodes and a mesh. *)
Module Scene.
Import Ref.

Definition usdRtId : Rtid := 4.
Definition mayaRtId : Rtid := 1.

Definition registry : gmap string ShaderNode :=
  <["UsdPreviewSurface" := mkShaderNode "glslfx"]>
    (<["mdl_surface" := mkShaderNode "mdl"]> ∅).

#[export] Instance usd : UsdApi := RefUsd usdRtId registry.

Definition token (v : TfToken) : AttrSpec := mkAttrSpec "token" v [].
Definition float : AttrSpec := mkAttrSpec "float" "" [].

Definition scene : RefStage :=
  mkStage
    (list_to_map
       [("/mtl", "Material"); ("/mtl/preview", "Shader"); ("/mtl/mdl", "Shader");
        ("/mtl/unknown", "Shader"); ("/mtl/S", "Shader"); ("/mtl/D", "Shader");
        ("/geo", "Mesh")])
    (list_to_map
       [(("/mtl", "outputs:surface"), token "");
        (("/mtl/preview", "info:id"), token "UsdPreviewSurface");
        (("/mtl/preview", "outputs:surface"), token "");
        (("/mtl/mdl", "info:id"), token "mdl_surface");
        (("/mtl/mdl", "outputs:surface"), token "");
        (("/mtl/unknown", "info:id"), token "nowhere");
        (("/mtl/unknown", "outputs:surface"), token "");
        (("/mtl/S", "outputs:result"), float);
        (("/mtl/D", "inputs:value"), float);
        (("/geo", "visibility"), token "inherited")]).

Definition world0 : World := mkWorld scene [].

(** The same scene with the surface terminal of the material already fed
    by the shader the registry does not know. *)
Definition wiredScene : RefStage :=
  mkStage (primTypes scene)
    (<[("/mtl", "outputs:surface") :=
         mkAttrSpec "token" "" [("/mtl/unknown", "outputs:surface")]]>
       (attrSpecs scene)).

Definition wiredWorld : World := mkWorld wiredScene [].

(** The mayaUsd view of the property [attrName] of the prim at [prim]. *)
Definition usdAttr (prim attrName : string) : UsdAttribute :=
  {| usdPrim := prim;
     usdAttribute := (prim, attrName);
     usdAttributeType := getTypeName (prim, attrName) |}.

(** The UFE attribute of the USD run time for that property. *)
Definition attr (prim attrName : string) : UfeAttribute :=
  {| sceneItem := {| runTimeId := usdRtId; path := prim |};
     name := attrName;
     asUsdAttribute := Some (usdAttr prim attrName) |}.

(** An attribute of another run time. *)
Definition mayaAttr (node attrName : string) : UfeAttribute :=
  {| sceneItem := {| runTimeId := mayaRtId; path := node |};
     name := attrName;
     asUsdAttribute := None |}.

(** An attribute of a USD scene item whose class is not the mayaUsd
    [UsdAttribute]. *)
Definition otherClassAttr (prim attrName : string) : UfeAttribute :=
  {| sceneItem := {| runTimeId := usdRtId; path := prim |};
     name := attrName;
     asUsdAttribute := None |}.

(** The attributes of the scenarios. *)
Definition S_result := attr "/mtl/S" "outputs:result".
Definition D_value := attr "/mtl/D" "inputs:value".
Definition mdl_surface := attr "/mtl/mdl" "outputs:surface".
Definition unknown_surface := attr "/mtl/unknown" "outputs:surface".
Definition mtl_surface := attr "/mtl" "outputs:surface".
Definition geo_visibility := attr "/geo" "visibility".

(** The world after the standard data connection D.value <- S.result. *)
Definition world1 : World := (createConnection (Some S_result) (Some D_value) world0).2.
End Scene.

(** ** Properties of the handler that hold for every implementation of the
    USD interface *)

Section HandlerFacts.
Context `{api : UsdApi}.

Implicit Types (w : World) (attr srcAttr dstAttr : UfeAttributePtr).

Lemma usdAttrFromUfeAttr_run attr w :
  usdAttrFromUfeAttr attr w
  = (coerced attr, mkWorld (stage w) (diagnostics w ++ coercionDiagnostic attr)).
Proof.
  destruct w as [st ds], attr as [a|]; cbn.
  - unfold usdAttrFromUfeAttr, coerced, coercionDiagnostic.
    destruct (decide (runTimeId (sceneItem a) = getUsdRunTimeId)) as [e|n].
    + rewrite decide_False by (intros ?; contradiction).
      cbn. by rewrite app_nil_r.
    + by rewrite decide_True.
  - reflexivity.
Qed.

Lemma coerced_Some attr u :
  coerced attr = Some u →
  ∃ a, attr = Some a ∧ runTimeId (sceneItem a) = getUsdRunTimeId
       ∧ asUsdAttribute a = Some u ∧ coercionDiagnostic attr = [].
Proof.
  destruct attr as [a|]; [|done]. unfold coerced, coercionDiagnostic.
  case_decide; [|done]. intros ?. by exists a.
Qed.

Lemma pathAmong_elem (p : SdfPath) (l : list SdfPath) :
  pathAmong p l = true ↔ p ∈ l.
Proof.
  induction l as [|q l IH]; cbn.
  - split; [done | by intros ?%elem_of_nil].
  - rewrite elem_of_cons, <- IH. case_decide as Hpq.
    + split; [intros _; by left | done].
    + split; [by right | intros [->|?]; [contradiction | done]].
Qed.

Lemma isConnected_run s d w :
  isConnected s d w = (pathAmong (GetPath s) (GetConnections (stage w) d), w).
Proof. reflexivity. Qed.

(** Both entry points start with the two coercions; when one of them
    fails nothing else runs. *)
Lemma createConnection_coercion_failure srcAttr dstAttr w :
  coerced srcAttr = None ∨ coerced dstAttr = None →
  createConnection srcAttr dstAttr w
  = (false, mkWorld (stage w)
              (diagnostics w ++ coercionDiagnostic srcAttr ++ coercionDiagnostic dstAttr)).
Proof.
  intros H. unfold createConnection, bind.
  rewrite !usdAttrFromUfeAttr_run. cbn [stage diagnostics].
  rewrite <- app_assoc.
  destruct H as [H|H]; rewrite H.
  - clear H. destruct srcAttr, dstAttr; try done; destruct (coerced _); reflexivity.
  - clear H. destruct srcAttr, dstAttr; try done; destruct (coerced _); reflexivity.
Qed.

Lemma deleteConnection_coercion_failure srcAttr dstAttr w :
  coerced srcAttr = None ∨ coerced dstAttr = None →
  deleteConnection srcAttr dstAttr w
  = (false, mkWorld (stage w)
              (diagnostics w ++ coercionDiagnostic srcAttr ++ coercionDiagnostic dstAttr)).
Proof.
  intros H. unfold deleteConnection, bind.
  rewrite !usdAttrFromUfeAttr_run. cbn [stage diagnostics].
  rewrite <- app_assoc.
  destruct H as [H|H]; rewrite H; [done|].
  by destruct (coerced srcAttr).
Qed.


(** Entering [createConnection] (or [deleteConnection]) with two
    attributes that coerce: the coercions leave the world alone. *)
Lemma coercions_run srcA dstA src dst w {A} (k : option UsdAttribute → option UsdAttribute → M A) :
  coerced (Some srcA) = Some src → coerced (Some dstA) = Some dst →
  (srcUsdAttr <- usdAttrFromUfeAttr (Some srcA) ;;
   dstUsdAttr <- usdAttrFromUfeAttr (Some dstA) ;;
   k srcUsdAttr dstUsdAttr) w
  = k (Some src) (Some dst) w.
Proof.
  intros Hs Hd. unfold bind. rewrite !usdAttrFromUfeAttr_run. cbn [stage diagnostics].
  apply coerced_Some in Hs as Hs'. destruct Hs' as (? & _ & _ & _ & ->).
  apply coerced_Some in Hd as Hd'. destruct Hd' as (? & _ & _ & _ & ->).
  rewrite Hs, Hd, !app_nil_r. by destruct w.
Qed.

Lemma createConnection_connected srcA dstA src dst w :
  coerced (Some srcA) = Some src → coerced (Some dstA) = Some dst →
  GetPath (usdAttribute src) ∈ GetConnections (stage w) (usdAttribute dst) →
  createConnection (Some srcA) (Some dstA) w = (false, w).
Proof.
  intros Hs Hd Hin. unfold createConnection.
  rewrite (coercions_run srcA dstA src dst w _ Hs Hd).
  unfold bind. rewrite isConnected_run.
  apply pathAmong_elem in Hin. by rewrite Hin.
Qed.

Lemma deleteConnection_not_connected srcA dstA src dst w :
  coerced (Some srcA) = Some src → coerced (Some dstA) = Some dst →
  GetPath (usdAttribute src) ∉ GetConnections (stage w) (usdAttribute dst) →
  deleteConnection (Some srcA) (Some dstA) w = (false, w).
Proof.
  intros Hs Hd Hin. unfold deleteConnection.
  rewrite (coercions_run srcA dstA src dst w _ Hs Hd).
  unfold bind. rewrite isConnected_run.
  destruct (pathAmong _ _) eqn:E; [|done].
  by apply pathAmong_elem in E.
Qed.

Lemma deleteConnection_connected srcA dstA src dst w :
  coerced (Some srcA) = Some src → coerced (Some dstA) = Some dst →
  GetPath (usdAttribute src) ∈ GetConnections (stage w) (usdAttribute dst) →
  deleteConnection (Some srcA) (Some dstA) w
  = editStage (DisconnectSource (usdAttribute dst) (usdAttribute src)) w.
Proof.
  intros Hs Hd Hin. unfold deleteConnection.
  rewrite (coercions_run srcA dstA src dst w _ Hs Hd).
  unfold bind. rewrite isConnected_run.
  apply pathAmong_elem in Hin. by rewrite Hin.
Qed.

(** Past the guard, [createConnection] is the code of lines 105-171. *)
Ltac enter_create Hs Hd Hnot :=
  unfold createConnection;
  rewrite (coercions_run _ _ _ _ _ _ Hs Hd);
  unfold bind at 1; rewrite isConnected_run;
  let E := fresh in
  destruct (pathAmong _ _) eqn:E; [by apply pathAmong_elem in E|]; clear E.

(** A call that failed a coercion is refused. *)
Lemma refused_coercion_failure srcAttr dstAttr w :
  coerced srcAttr = None ∨ coerced dstAttr = None →
  refused w (createConnection srcAttr dstAttr w)
  ∧ refused w (deleteConnection srcAttr dstAttr w).
Proof.
  intros H. unfold refused.
  rewrite (createConnection_coercion_failure _ _ _ H).
  by rewrite (deleteConnection_coercion_failure _ _ _ H).
Qed.

Lemma nullOrForeign_coerced attr : nullOrForeign attr → coerced attr = None.
Proof.
  destruct attr as [a|]; [|done]. cbn. intros ?. by rewrite decide_False.
Qed.

(** The source side of lines 117-129 and the guard behind it, for a pair
    that is not connected yet. *)
Lemma createConnection_steps srcA dstA src dst w srcBase srcDir dstBase dstDir :
  coerced (Some srcA) = Some src → coerced (Some dstA) = Some dst →
  GetPath (usdAttribute src) ∉ GetConnections (stage w) (usdAttribute dst) →
  GetBaseNameAndType (name srcA) = (srcBase, srcDir) →
  GetBaseNameAndType (name dstA) = (dstBase, dstDir) →
  let s := sourceSocket src srcBase srcDir (stage w) in
  createConnection (Some srcA) (Some dstA) w
  = match destinationSocket srcDir src dst dstBase dstDir s.2 with
    | Some d => connectStep d.1 s.1 d.2 w
    | None =>
        (false,
         mkWorld s.2
           (diagnostics w ++
              [nodeDefNotFoundMsg (GetShaderId s.2 (usdPrim src)) (path (sceneItem srcA))]))
    end.
Proof.
  intros Hs Hd Hnot Hsn Hdn s. subst s. enter_create Hs Hd Hnot.
  rewrite Hsn, Hdn. destruct w as [st ds].
  unfold destinationSocket, terminalCase, sourceSocket, connectStep.
  unfold bind, readStage, editStage, TF_RUNTIME_ERROR, ret. cbn [stage diagnostics].
  destruct srcDir, dstDir;
    repeat (case_decide; try done); repeat (case_bool_decide; try done);
    repeat (cbn -[isTerminalName];
      match goal with
      | |- context [IsMaterial ?a ?b] => is_var a; destruct (IsMaterial a b)
      | |- context [isTerminalName ?a] => destruct (isTerminalName a)
      | |- context [GetShaderNodeByIdentifier (GetShaderId ?a ?b)] =>
          is_var a; destruct (GetShaderNodeByIdentifier (GetShaderId a b))
      | |- context [CreateInput ?a ?b ?c ?d] => is_var d; destruct (CreateInput a b c d)
      | |- context [CreateOutput ?a ?b ?c ?d] => is_var d; destruct (CreateOutput a b c d)
      | |- context [createTerminalOutput ?a ?b ?c ?d] =>
          is_var d; destruct (createTerminalOutput a b c d)
      | |- context [ConnectToSource ?a ?b ?c] =>
          is_var c; destruct (ConnectToSource a b c)
      end); reflexivity.
Qed.

End HandlerFacts.

(** ** The handler's contract, for every implementation of the USD interface *)

Section Contract.
Context `{api : UsdApi}.

Implicit Types (w : World) (attr other : UfeAttributePtr).

(** C2. [isConnected(a, b)] answers true exactly when the path of [a] is
    one of the upstream connection paths recorded on [b], and it leaves the
    world (stage and diagnostics) as it found it. *)
Theorem isConnected_iff_upstream (a b : PxrUsdAttribute) w :
  ((isConnected a b w).1 = true ↔ GetPath a ∈ GetConnections (stage w) b)
  ∧ (isConnected a b w).2 = w.
Proof.
  rewrite isConnected_run. cbn. split; [apply pathAmong_elem | done].
Qed.

(** C4. When the path of [a] is not among the upstream paths of [b],
    [deleteConnection(a, b)] returns false and the stage is unchanged. *)
Theorem deleteConnection_not_connected_refused srcA dstA src dst w :
  asUsdAttribute srcA = Some src → asUsdAttribute dstA = Some dst →
  GetPath (usdAttribute src) ∉ GetConnections (stage w) (usdAttribute dst) →
  (deleteConnection (Some srcA) (Some dstA) w).1 = false
  ∧ stage (deleteConnection (Some srcA) (Some dstA) w).2 = stage w.
Proof.
  intros Hs Hd Hnot.
  destruct (coerced (Some srcA)) as [src'|] eqn:Es;
    [destruct (coerced (Some dstA)) as [dst'|] eqn:Ed|].
  - assert (src' = src) as ->.
    { apply coerced_Some in Es as (? & [= <-] & _ & ? & _). congruence. }
    assert (dst' = dst) as ->.
    { apply coerced_Some in Ed as (? & [= <-] & _ & ? & _). congruence. }
    by rewrite (deleteConnection_not_connected _ _ _ _ _ Es Ed Hnot).
  - apply (refused_coercion_failure (Some srcA) (Some dstA) w). by right.
  - apply (refused_coercion_failure (Some srcA) (Some dstA) w). by left.
Qed.

(** C5, amended.  A non-null reference tagged with the USD run time whose
    object is a mayaUsd UsdAttribute coerces to that same object, silently.
    A null reference, or one tagged with another run time, is reported on
    the diagnostic channel and coerces to nothing; createConnection and
    deleteConnection given such a reference, on either side, return false
    and leave the stage unchanged whatever the other argument is. *)
Theorem coercion_contract :
  (∀ a u w,
     runTimeId (sceneItem a) = getUsdRunTimeId → asUsdAttribute a = Some u →
     usdAttrFromUfeAttr (Some a) w = (Some u, w))
  ∧ (∀ attr w,
       nullOrForeign attr →
       (∃ msg, usdAttrFromUfeAttr attr w
               = (None, mkWorld (stage w) (diagnostics w ++ [msg])))
       ∧ ∀ other,
           refused w (createConnection attr other w)
           ∧ refused w (createConnection other attr w)
           ∧ refused w (deleteConnection attr other w)
           ∧ refused w (deleteConnection other attr w)).
Proof.
  split.
  - intros a u [st ds] Hrt Hu. rewrite usdAttrFromUfeAttr_run. cbn.
    rewrite !decide_True by done. by rewrite Hu, app_nil_r.
  - intros attr w Hbad. split.
    + rewrite usdAttrFromUfeAttr_run, (nullOrForeign_coerced _ Hbad).
      destruct attr as [a|]; cbn in *; [|by eexists].
      rewrite decide_False by done. by eexists.
    + intros other. apply nullOrForeign_coerced in Hbad.
      repeat split; apply (refused_coercion_failure _ _ w); by (left + right).
Qed.

(** C10. A non-null reference tagged with the USD run time whose object is
    not a mayaUsd UsdAttribute coerces to nothing without any diagnostic;
    createConnection and deleteConnection given such a reference, on either
    side, return false and leave the stage unchanged. *)
Theorem coercion_other_class_silent a w :
  runTimeId (sceneItem a) = getUsdRunTimeId → asUsdAttribute a = None →
  usdAttrFromUfeAttr (Some a) w = (None, w)
  ∧ ∀ other,
      refused w (createConnection (Some a) other w)
      ∧ refused w (createConnection other (Some a) w)
      ∧ refused w (deleteConnection (Some a) other w)
      ∧ refused w (deleteConnection other (Some a) w).
Proof.
  intros Hrt Ha.
  assert (coerced (Some a) = None) as Hc by (cbn; by rewrite decide_True).
  split.
  - rewrite usdAttrFromUfeAttr_run, Hc. cbn. rewrite decide_True by done.
    rewrite app_nil_r. by destruct w.
  - intros other.
    repeat split; apply (refused_coercion_failure _ _ w); by (left + right).
Qed.

(** C6. In the material-terminal branch the terminal output is created
    with the declared source type of the shader definition as render
    context, except for the legacy source type glslfx, for which it is
    created with the universal render context; a declared source type mdl
    gives the render context mdl, which is not the universal one.  The
    material and the shader identifier are read, as in the code, once the
    source output socket has been ensured. *)
Theorem terminal_render_context
    srcA dstA src dst w srcBase srcDir dstBase dstDir def :
  coerced (Some srcA) = Some src → coerced (Some dstA) = Some dst →
  GetPath (usdAttribute src) ∉ GetConnections (stage w) (usdAttribute dst) →
  GetBaseNameAndType (name srcA) = (srcBase, srcDir) → srcDir ≠ Input →
  GetBaseNameAndType (name dstA) = (dstBase, dstDir) → dstDir ≠ Input →
  isTerminalName dstBase = true →
  let s := CreateOutput (usdPrim src) srcBase (usdAttributeType src (stage w)) (stage w) in
  IsMaterial s.2 (usdPrim dst) = true →
  GetShaderNodeByIdentifier (GetShaderId s.2 (usdPrim src)) = Some def →
  ∃ renderContext,
    (GetSourceType def = "glslfx" →
     renderContext = UsdShadeTokens.universalRenderContext)
    ∧ (GetSourceType def ≠ "glslfx" → renderContext = GetSourceType def)
    ∧ (GetSourceType def = "mdl" →
       renderContext = "mdl" ∧ renderContext ≠ UsdShadeTokens.universalRenderContext)
    ∧ ∃ d,
        (dstBase = UsdShadeTokens.surface →
         d = CreateSurfaceOutput (usdPrim dst) renderContext s.2)
        ∧ (dstBase = UsdShadeTokens.volume →
           d = CreateVolumeOutput (usdPrim dst) renderContext s.2)
        ∧ (dstBase = UsdShadeTokens.displacement →
           d = CreateDisplacementOutput (usdPrim dst) renderContext s.2)
        ∧ createConnection (Some srcA) (Some dstA) w
          = connectStep (inr d.1) (inr s.1) d.2 w.
Proof.
  intros Hs Hd Hnot Hsn Hsrc Hdn Hdst Hterm s Hmat Hdef.
  exists (renderContextOf def). unfold renderContextOf.
  split; [|split; [|split]].
  - intros E. by rewrite decide_True.
  - intros E. by rewrite decide_False.
  - intros E. rewrite decide_False by (by rewrite E). by rewrite E.
  - exists (createTerminalOutput (usdPrim dst) dstBase (renderContextOf def) s.2).
    unfold createTerminalOutput.
    split; [|split; [|split]].
    + intros ->. by rewrite decide_True.
    + intros ->. by rewrite decide_False, decide_True.
    + intros ->. do 2 (rewrite decide_False by done). done.
    + rewrite (createConnection_steps _ _ _ _ _ _ _ _ _ Hs Hd Hnot Hsn Hdn).
      assert (sourceSocket src srcBase srcDir (stage w) = (inr s.1, s.2)) as ->
        by (by destruct srcDir).
      cbn [fst snd]. unfold destinationSocket, terminalCase.
      rewrite !bool_decide_true, Hmat, Hterm by done. cbn [andb].
      by rewrite Hdef.
Qed.

(** C7, amended.  Both attributes are Outputs, the destination is one of
    surface, volume, displacement on a material, and the registry does not
    know the shader identifier stored on the source node.  If the pair is
    not connected yet, the call reports the missing definition, returns
    false, and the only edit it has made is to ensure the source output
    socket: no terminal output is created.  If the pair is already
    connected, the call returns false with nothing reported and nothing
    changed. *)
Theorem unregistered_shader_refused srcA dstA src dst w srcBase dstBase :
  coerced (Some srcA) = Some src → coerced (Some dstA) = Some dst →
  GetBaseNameAndType (name srcA) = (srcBase, Output) →
  GetBaseNameAndType (name dstA) = (dstBase, Output) →
  isTerminalName dstBase = true →
  let s := CreateOutput (usdPrim src) srcBase (usdAttributeType src (stage w)) (stage w) in
  IsMaterial s.2 (usdPrim dst) = true →
  GetShaderNodeByIdentifier (GetShaderId s.2 (usdPrim src)) = None →
  (GetPath (usdAttribute src) ∉ GetConnections (stage w) (usdAttribute dst) →
   createConnection (Some srcA) (Some dstA) w
   = (false,
      mkWorld s.2
        (diagnostics w ++
           [nodeDefNotFoundMsg (GetShaderId s.2 (usdPrim src)) (path (sceneItem srcA))])))
  ∧ (GetPath (usdAttribute src) ∈ GetConnections (stage w) (usdAttribute dst) →
     createConnection (Some srcA) (Some dstA) w = (false, w)).
Proof.
  intros Hs Hd Hsn Hdn Hterm s Hmat Hdef. subst s. split.
  - intros Hnot.
    rewrite (createConnection_steps _ _ _ _ _ _ _ _ _ Hs Hd Hnot Hsn Hdn).
    cbn [sourceSocket fst snd]. unfold destinationSocket, terminalCase.
    rewrite !bool_decide_true, Hmat, Hterm by done. cbn [andb].
    by rewrite Hdef.
  - by apply createConnection_connected.
Qed.

(** C8. Once both coercions have succeeded, the pair is not connected yet
    and, in the terminal case, the registry knows the shader of the source,
    the call ends in exactly one ConnectToSource, from the destination
    socket to the source socket materialized for the pair of directions,
    and returns what that call returned; the diagnostics are untouched. *)
Theorem createConnection_returns_connect_result
    srcA dstA src dst w srcBase srcDir dstBase dstDir :
  coerced (Some srcA) = Some src → coerced (Some dstA) = Some dst →
  GetPath (usdAttribute src) ∉ GetConnections (stage w) (usdAttribute dst) →
  GetBaseNameAndType (name srcA) = (srcBase, srcDir) →
  GetBaseNameAndType (name dstA) = (dstBase, dstDir) →
  let s := sourceSocket src srcBase srcDir (stage w) in
  (terminalCase srcDir dstDir dst dstBase s.2 = true →
   is_Some (GetShaderNodeByIdentifier (GetShaderId s.2 (usdPrim src)))) →
  ∃ d,
    destinationSocket srcDir src dst dstBase dstDir s.2 = Some d
    ∧ createConnection (Some srcA) (Some dstA) w
      = ((ConnectToSource d.1 s.1 d.2).1,
         mkWorld (ConnectToSource d.1 s.1 d.2).2 (diagnostics w)).
Proof.
  intros Hs Hd Hnot Hsn Hdn s Hreg.
  rewrite (createConnection_steps _ _ _ _ _ _ _ _ _ Hs Hd Hnot Hsn Hdn).
  fold s. unfold destinationSocket in *.
  destruct (terminalCase srcDir dstDir dst dstBase s.2).
  - destruct Hreg as [def ->]; [done|]. by eexists.
  - destruct dstDir; by eexists.
Qed.

End Contract.

(** ** The reference implementation: what the USD calls do *)

Section RefFacts.
Import Ref.

Implicit Types (st : RefStage) (a p q : Path).

Lemma stripPrefix_Some (pre s r : string) :
  stripPrefix pre s = Some r → s = pre +:+ r.
Proof.
  revert s. induction pre as [|c pre IH]; intros s; cbn.
  - by intros [= ->].
  - destruct s as [|d s]; [done|]. case_decide; [|done].
    intros ->%IH. by subst.
Qed.

Lemma getBaseNameAndType_Input (fullName base : TfToken) :
  getBaseNameAndType fullName = (base, Input) → fullName = "inputs:" +:+ base.
Proof.
  unfold getBaseNameAndType.
  destruct (stripPrefix "inputs:" fullName) eqn:E1.
  - intros [= <-]. by apply stripPrefix_Some.
  - by destruct (stripPrefix "outputs:" fullName).
Qed.

Lemma getBaseNameAndType_Output (fullName base : TfToken) :
  getBaseNameAndType fullName = (base, Output) → fullName = "outputs:" +:+ base.
Proof.
  unfold getBaseNameAndType.
  destruct (stripPrefix "inputs:" fullName) eqn:E1; [done|].
  destruct (stripPrefix "outputs:" fullName) eqn:E2; [|done].
  intros [= <-]. by apply stripPrefix_Some.
Qed.

(** [ensureAttr] hands back the attribute it was asked for, adds at most
    that attribute, and touches neither a prim nor another attribute. *)
Lemma ensureAttr_socket prim attrName ty st a :
  (ensureAttr prim attrName ty st).1 = Some a →
  a = (prim, attrName) ∧ is_Some (attrSpecs (ensureAttr prim attrName ty st).2 !! a).
Proof.
  unfold ensureAttr. destruct (primTypes st !! prim); [|done].
  destruct (attrSpecs st !! (prim, attrName)) eqn:E; cbn [fst snd attrSpecs];
    intros [= <-]; (split; [done|]).
  - by rewrite E.
  - by rewrite lookup_insert_eq.
Qed.

Lemma ensureAttr_primTypes prim attrName ty st :
  primTypes (ensureAttr prim attrName ty st).2 = primTypes st.
Proof.
  unfold ensureAttr. destruct (primTypes st !! prim); [|done].
  by destruct (attrSpecs st !! (prim, attrName)).
Qed.

Lemma ensureAttr_other prim attrName ty st q :
  q ≠ (prim, attrName) →
  attrSpecs (ensureAttr prim attrName ty st).2 !! q = attrSpecs st !! q.
Proof.
  intros Hne. unfold ensureAttr. destruct (primTypes st !! prim); [|done].
  destruct (attrSpecs st !! (prim, attrName)); [done|]. cbn.
  by rewrite lookup_insert_ne.
Qed.

Lemma ensureAttr_keeps prim attrName ty st q spec :
  attrSpecs st !! q = Some spec →
  attrSpecs (ensureAttr prim attrName ty st).2 !! q = Some spec.
Proof.
  intros Hq. destruct (decide (q = (prim, attrName))) as [->|Hne].
  - unfold ensureAttr. destruct (primTypes st !! prim); [|done]. by rewrite Hq.
  - by rewrite ensureAttr_other.
Qed.

(** A successful connect leaves the source as the one upstream path of the
    destination. *)
Lemma connectToSource_true dst src st st' :
  connectToSource dst src st = (true, st') →
  ∃ d s, socketAttr dst = Some d ∧ socketAttr src = Some s
         ∧ getConnections st' d = [s].
Proof.
  unfold connectToSource.
  destruct (socketAttr dst) as [d|]; [|done].
  destruct (socketAttr src) as [s|]; [|done].
  destruct (attrSpecs st !! d); [|done].
  destruct (attrSpecs st !! s); [|done].
  intros [= <-]. exists d, s. repeat split.
  unfold getConnections. cbn. by rewrite lookup_insert_eq.
Qed.

(** No connect removes an attribute. *)
Lemma connectToSource_keeps dst src st q :
  is_Some (attrSpecs st !! q) →
  is_Some (attrSpecs (connectToSource dst src st).2 !! q).
Proof.
  intros Hq. unfold connectToSource.
  destruct (socketAttr dst) as [d|]; [|done].
  destruct (socketAttr src) as [s|]; [|done].
  destruct (attrSpecs st !! d) eqn:Ed; [|done].
  destruct (attrSpecs st !! s); [|done]. cbn.
  destruct (decide (d = q)) as [->|Hne].
  - by rewrite lookup_insert_eq.
  - by rewrite lookup_insert_ne.
Qed.

(** A successful disconnect leaves the source out of the upstream paths of
    the destination. *)
Lemma disconnectSource_true shadingAttr sourceAttr st st' :
  disconnectSource shadingAttr sourceAttr st = (true, st') →
  sourceAttr ∉ getConnections st' shadingAttr.
Proof.
  unfold disconnectSource.
  destruct (attrSpecs st !! shadingAttr) as [spec|]; [|done].
  intros [= <-]. unfold getConnections. cbn. rewrite lookup_insert_eq. cbn.
  destruct (attrSpecs st !! sourceAttr).
  - rewrite list_elem_of_filter. by intros [? _].
  - apply not_elem_of_nil.
Qed.

Lemma joinIdentifier_universal (terminal : TfToken) :
  joinIdentifier UsdShadeTokens.universalRenderContext terminal = terminal.
Proof. reflexivity. Qed.

Lemma getShaderId_ensureAttr prim attrName ty st (node : string) :
  attrName ≠ "info:id" →
  getShaderId (ensureAttr prim attrName ty st).2 node = getShaderId st node.
Proof.
  intros Hne. unfold getShaderId. rewrite ensureAttr_other; [done|]. congruence.
Qed.

Lemma isMaterial_ensureAttr prim attrName ty st (node : string) :
  isMaterial (ensureAttr prim attrName ty st).2 node = isMaterial st node.
Proof. unfold isMaterial. by rewrite ensureAttr_primTypes. Qed.

Context (usdRtid : Rtid) (registry : gmap string ShaderNode).

#[local] Hint Extern 0 UsdApi => exact (RefUsd usdRtid registry) : typeclass_instances.

(** Ensuring the source socket changes neither what is a material nor the
    shader identifiers. *)
Lemma sourceSocket_frame (src : UsdAttribute) base dir st (node : string) :
  isMaterial (sourceSocket src base dir st).2 node = isMaterial st node
  ∧ getShaderId (sourceSocket src base dir st).2 node = getShaderId st node.
Proof.
  destruct dir; cbn; unfold createInput, createOutput;
    by rewrite isMaterial_ensureAttr, getShaderId_ensureAttr.
Qed.

(** The source socket, when valid, is the attribute of the source prim
    whose name is the namespace of the direction followed by the base
    name. *)
Lemma sourceSocket_attr (src : UsdAttribute) base dir st a :
  socketAttr (sourceSocket src base dir st).1 = Some a →
  a = (usdPrim src, (if decide (dir = Input) then "inputs:" else "outputs:") +:+ base).
Proof.
  destruct dir; cbn; unfold createInput, createOutput;
    by intros [-> _]%ensureAttr_socket.
Qed.

(** The same for the destination socket outside of the terminal case; in
    the terminal case it is the terminal output of the material for the
    render context of the shader definition. *)
Lemma destinationSocket_attr srcDir (src dst : UsdAttribute) base dir st d a :
  destinationSocket srcDir src dst base dir st = Some d →
  socketAttr d.1 = Some a →
  if terminalCase srcDir dir dst base st then
    ∃ def, registry !! getShaderId st (usdPrim src) = Some def
           ∧ a = (usdPrim dst, "outputs:" +:+ joinIdentifier (renderContextOf def) base)
  else
    a = (usdPrim dst, (if decide (dir = Input) then "inputs:" else "outputs:") +:+ base).
Proof.
  unfold destinationSocket.
  destruct (terminalCase srcDir dir dst base st) eqn:Et.
  - cbn. destruct (registry !! getShaderId st (usdPrim src)) as [def|]; [|done].
    intros [= <-]. cbn [fst]. intros Ha. exists def. split; [done|].
    apply andb_prop in Et as [_ Hname]. unfold isTerminalName in Hname.
    unfold createTerminalOutput in Ha. cbn in Ha. unfold createTerminal, createOutput in Ha.
    repeat case_decide; subst;
      try (by apply ensureAttr_socket in Ha as [-> _]).
  - destruct dir; intros [= <-]; cbn; unfold createInput, createOutput;
      by intros [-> _]%ensureAttr_socket.
Qed.

End RefFacts.

(** ** The handler on the reference implementation *)

Section RefContract.
Import Ref.
Context (usdRtid : Rtid) (registry : gmap string ShaderNode).

#[local] Hint Extern 0 UsdApi => exact (RefUsd usdRtid registry) : typeclass_instances.

Implicit Types (srcA dstA : UfeAttribute) (src dst : UsdAttribute) (w : World).

(** A call that returned true went through both coercions. *)
Lemma coerced_of_success srcA dstA src dst w w' :
  asUsdAttribute srcA = Some src → asUsdAttribute dstA = Some dst →
  createConnection (Some srcA) (Some dstA) w = (true, w')
  ∨ deleteConnection (Some srcA) (Some dstA) w = (true, w') →
  coerced (Some srcA) = Some src ∧ coerced (Some dstA) = Some dst.
Proof.
  intros Hs Hd Hrun.
  destruct (coerced (Some srcA)) as [src'|] eqn:Es;
    [destruct (coerced (Some dstA)) as [dst'|] eqn:Ed|].
  - apply coerced_Some in Es as (? & [= <-] & _ & ? & _).
    apply coerced_Some in Ed as (? & [= <-] & _ & ? & _).
    split; congruence.
  - exfalso. destruct Hrun as [H|H].
    + by rewrite createConnection_coercion_failure in H by (by right).
    + by rewrite deleteConnection_coercion_failure in H by (by right).
  - exfalso. destruct Hrun as [H|H].
    + by rewrite createConnection_coercion_failure in H by (by left).
    + by rewrite deleteConnection_coercion_failure in H by (by left).
Qed.

(** After a successful delete the pair is not connected. *)
Lemma deleteConnection_then_not_connected srcA dstA src dst w w' :
  asUsdAttribute srcA = Some src → asUsdAttribute dstA = Some dst →
  deleteConnection (Some srcA) (Some dstA) w = (true, w') →
  usdAttribute src ∉ getConnections (stage w') (usdAttribute dst).
Proof.
  intros Hs Hd Hrun.
  destruct (coerced_of_success _ _ _ _ _ _ Hs Hd (or_intror Hrun)) as [Es Ed].
  destruct (decide (usdAttribute src ∈ getConnections (stage w) (usdAttribute dst)))
    as [Hin|Hnot].
  - rewrite (deleteConnection_connected _ _ _ _ _ Es Ed Hin) in Hrun.
    unfold editStage in Hrun. cbn in Hrun.
    destruct (disconnectSource _ _ _) as [ok st'] eqn:E.
    injection Hrun as -> <-. by apply disconnectSource_true in E.
  - by rewrite (deleteConnection_not_connected _ _ _ _ _ Es Ed Hnot) in Hrun.
Qed.

(** After a successful create the source socket is the one upstream path
    of the destination socket. *)
Lemma createConnection_then_sockets_connected
    srcA dstA src dst w w' srcBase srcDir dstBase dstDir :
  asUsdAttribute srcA = Some src → asUsdAttribute dstA = Some dst →
  getBaseNameAndType (name srcA) = (srcBase, srcDir) →
  getBaseNameAndType (name dstA) = (dstBase, dstDir) →
  createConnection (Some srcA) (Some dstA) w = (true, w') →
  ∃ d a b,
    destinationSocket srcDir src dst dstBase dstDir
      (sourceSocket src srcBase srcDir (stage w)).2 = Some d
    ∧ socketAttr (sourceSocket src srcBase srcDir (stage w)).1 = Some a
    ∧ socketAttr d.1 = Some b
    ∧ getConnections (stage w') b = [a].
Proof.
  intros Hs Hd Hsn Hdn Hrun.
  destruct (coerced_of_success _ _ _ _ _ _ Hs Hd (or_introl Hrun)) as [Es Ed].
  destruct (decide (usdAttribute src ∈ getConnections (stage w) (usdAttribute dst)))
    as [Hin|Hnot].
  { by rewrite (createConnection_connected _ _ _ _ _ Es Ed Hin) in Hrun. }
  rewrite (createConnection_steps _ _ _ _ _ _ _ _ _ Es Ed Hnot Hsn Hdn) in Hrun.
  destruct (destinationSocket _ _ _ _ _ _) as [d|] eqn:Edst; [|done].
  unfold connectStep in Hrun. cbn in Hrun.
  destruct (connectToSource _ _ _) as [ok st'] eqn:E.
  injection Hrun as -> <-. apply connectToSource_true in E as (b & a & Hb & Ha & Hc).
  by exists d, a, b.
Qed.

Lemma destinationSocket_keeps srcDir src dst base dir st d (p : Path) :
  destinationSocket srcDir src dst base dir st = Some d →
  is_Some (attrSpecs st !! p) → is_Some (attrSpecs d.2 !! p).
Proof.
  intros Hd [spec Hp]. exists spec. revert Hd. unfold destinationSocket.
  destruct (terminalCase srcDir dir dst base st).
  - cbn. destruct (registry !! getShaderId st (usdPrim src)) as [def|]; [|done].
    intros [= <-]. cbn [snd]. unfold createTerminalOutput. cbn.
    repeat case_decide; by apply ensureAttr_keeps.
  - destruct dir; intros [= <-]; by apply ensureAttr_keeps.
Qed.

(** C1, amended.  On the reference implementation of the USD calls: after
    a successful deleteConnection(a, b), isConnected(a, b) is false.  After
    a successful createConnection(a, b), isConnected(a, b) is true provided
    the two sockets the call connects are [a] and [b] themselves: each is
    the property called by the attribute's name on the attribute's prim,
    both names carry the inputs: or outputs: namespace, and, if the call
    takes the material-terminal branch, the render context of the shader
    definition is the universal one. *)
Theorem connection_round_trip srcA dstA src dst w w' :
  asUsdAttribute srcA = Some src → asUsdAttribute dstA = Some dst →
  (deleteConnection (Some srcA) (Some dstA) w = (true, w') →
   (isConnected (usdAttribute src) (usdAttribute dst) w').1 = false)
  ∧ (∀ srcBase srcDir dstBase dstDir,
       usdAttribute src = (usdPrim src, name srcA) →
       usdAttribute dst = (usdPrim dst, name dstA) →
       getBaseNameAndType (name srcA) = (srcBase, srcDir) → srcDir ≠ Invalid →
       getBaseNameAndType (name dstA) = (dstBase, dstDir) → dstDir ≠ Invalid →
       (terminalCase srcDir dstDir dst dstBase (stage w) = true →
        ∀ def, registry !! getShaderId (stage w) (usdPrim src) = Some def →
               renderContextOf def = UsdShadeTokens.universalRenderContext) →
       createConnection (Some srcA) (Some dstA) w = (true, w') →
       (isConnected (usdAttribute src) (usdAttribute dst) w').1 = true).
Proof.
  intros Hs Hd. split.
  - intros Hrun. rewrite isConnected_run. cbn [fst].
    apply not_true_is_false. intros Hc%pathAmong_elem.
    by apply (deleteConnection_then_not_connected _ _ _ _ _ _ Hs Hd Hrun).
  - intros srcBase srcDir dstBase dstDir Hsrc Hdst Hsn Hsdir Hdn Hddir Hctx Hrun.
    destruct (createConnection_then_sockets_connected _ _ _ _ _ _ _ _ _ _
                Hs Hd Hsn Hdn Hrun) as (d & a & b & Hsock & Ha & Hb & Hconn).
    apply sourceSocket_attr in Ha.
    apply (destinationSocket_attr _ _ _ _ _ _ _ _ _ _ Hsock) in Hb.
    destruct (sourceSocket_frame _ _ src srcBase srcDir (stage w) (usdPrim dst)) as [Hm _].
    destruct (sourceSocket_frame _ _ src srcBase srcDir (stage w) (usdPrim src)) as [_ Hi].
    assert (terminalCase srcDir dstDir dst dstBase
              (sourceSocket src srcBase srcDir (stage w)).2
            = terminalCase srcDir dstDir dst dstBase (stage w)) as Ht.
    { unfold terminalCase. cbn. unfold IsMaterial in *. cbn in *. by rewrite Hm. }
    rewrite Ht in Hb.
    assert (a = usdAttribute src) as ->.
    { rewrite Ha, Hsrc. f_equal. destruct srcDir; [done| |].
      - symmetry. by apply getBaseNameAndType_Input.
      - symmetry. by apply getBaseNameAndType_Output. }
    assert (b = usdAttribute dst) as ->.
    { rewrite Hdst. destruct (terminalCase srcDir dstDir dst dstBase (stage w)) eqn:Et.
      - destruct Hb as (def & Hdef & ->).
        assert (registry !! getShaderId (stage w) (usdPrim src) = Some def) as Hdef'.
        { etrans; [|exact Hdef]. f_equal. symmetry. exact Hi. }
        rewrite (Hctx eq_refl def Hdef'), joinIdentifier_universal. f_equal.
        unfold terminalCase in Et.
        destruct dstDir; [done| by destruct (bool_decide (srcDir ≠ Input)) |].
        symmetry. by apply getBaseNameAndType_Output.
      - rewrite Hb. f_equal. destruct dstDir; [done| |].
        + symmetry. by apply getBaseNameAndType_Input.
        + symmetry. by apply getBaseNameAndType_Output. }
    rewrite isConnected_run. cbn [fst]. apply pathAmong_elem.
    cbn. unfold GetConnections. cbn. rewrite Hconn. apply list_elem_of_here.
Qed.

(** Whatever attribute exists once the source socket has
    been ensured, or once the destination socket has been materialized,
    still exists when the call returns, whether the call returns true or
    false. *)
Lemma createConnection_keeps_sockets
    srcA dstA src dst w srcBase srcDir dstBase dstDir (p : Path) :
  coerced (Some srcA) = Some src → coerced (Some dstA) = Some dst →
  usdAttribute src ∉ getConnections (stage w) (usdAttribute dst) →
  getBaseNameAndType (name srcA) = (srcBase, srcDir) →
  getBaseNameAndType (name dstA) = (dstBase, dstDir) →
  let s := sourceSocket src srcBase srcDir (stage w) in
  (is_Some (attrSpecs s.2 !! p)
   ∨ ∃ d, destinationSocket srcDir src dst dstBase dstDir s.2 = Some d
          ∧ is_Some (attrSpecs d.2 !! p)) →
  is_Some (attrSpecs (stage (createConnection (Some srcA) (Some dstA) w).2) !! p).
Proof.
  intros Es Ed Hnot Hsn Hdn s Hp.
  rewrite (createConnection_steps _ _ _ _ _ _ _ _ _ Es Ed Hnot Hsn Hdn). fold s.
  destruct (destinationSocket srcDir src dst dstBase dstDir s.2) as [d|] eqn:Edst.
  - unfold connectStep. cbn [snd stage]. apply connectToSource_keeps.
    destruct Hp as [Hp|(d' & [= <-] & Hp)]; [|done].
    by apply (destinationSocket_keeps _ _ _ _ _ _ _ _ Edst).
  - cbn [snd stage]. by destruct Hp as [Hp|(d' & [=] & _)].
Qed.

End RefContract.

(** ** Further properties of the handler, for every implementation of the USD
    interface *)

Section MoreContract.
Context `{api : UsdApi}.

Implicit Types (w : World) (srcAttr dstAttr : UfeAttributePtr).

(** X1. Both entry points coerce the source and then the destination before
    they test either result.  When a coercion fails the call returns false,
    the stage is the one it started with, and the diagnostics are those of
    the source followed by those of the destination: two messages when both
    references are null or foreign, none when the only failure is a dynamic
    cast. *)
Theorem failed_coercions_all_reported srcAttr dstAttr w :
  coerced srcAttr = None ∨ coerced dstAttr = None →
  createConnection srcAttr dstAttr w
  = (false,
     mkWorld (stage w)
       (diagnostics w ++ coercionDiagnostic srcAttr ++ coercionDiagnostic dstAttr))
  ∧ deleteConnection srcAttr dstAttr w
    = (false,
       mkWorld (stage w)
         (diagnostics w ++ coercionDiagnostic srcAttr ++ coercionDiagnostic dstAttr)).
Proof.
  intros H. split.
  - by apply createConnection_coercion_failure.
  - by apply deleteConnection_coercion_failure.
Qed.

(** X2. On a pair that coerces and is connected, deleteConnection is one
    DisconnectSource, with the destination attribute first and the source
    attribute second: it returns what that call returned, the stage is the
    one that call left, and nothing is reported. *)
Theorem deleteConnection_returns_disconnect_result srcA dstA src dst w :
  coerced (Some srcA) = Some src → coerced (Some dstA) = Some dst →
  GetPath (usdAttribute src) ∈ GetConnections (stage w) (usdAttribute dst) →
  let r := DisconnectSource (usdAttribute dst) (usdAttribute src) (stage w) in
  deleteConnection (Some srcA) (Some dstA) w = (r.1, mkWorld r.2 (diagnostics w)).
Proof.
  intros Hs Hd Hin r. subst r.
  rewrite (deleteConnection_connected _ _ _ _ _ Hs Hd Hin).
  unfold editStage. by destruct (DisconnectSource _ _ _).
Qed.

(** X3. A call that returns true has reported nothing: both references
    coerced, and the diagnostics after the call are the diagnostics before
    it.  Conversely every diagnostic goes with a false result. *)
Theorem success_is_silent srcAttr dstAttr w :
  (createConnection srcAttr dstAttr w).1 = true
  ∨ (deleteConnection srcAttr dstAttr w).1 = true →
  is_Some (coerced srcAttr) ∧ is_Some (coerced dstAttr)
  ∧ ((createConnection srcAttr dstAttr w).1 = true →
     diagnostics (createConnection srcAttr dstAttr w).2 = diagnostics w)
  ∧ ((deleteConnection srcAttr dstAttr w).1 = true →
     diagnostics (deleteConnection srcAttr dstAttr w).2 = diagnostics w).
Proof.
  intros Hrun.
  destruct (coerced srcAttr) as [src|] eqn:Es; cycle 1.
  { exfalso. destruct Hrun as [H|H].
    - by rewrite createConnection_coercion_failure in H by (by left).
    - by rewrite deleteConnection_coercion_failure in H by (by left). }
  destruct (coerced dstAttr) as [dst|] eqn:Ed; cycle 1.
  { exfalso. destruct Hrun as [H|H].
    - by rewrite createConnection_coercion_failure in H by (by right).
    - by rewrite deleteConnection_coercion_failure in H by (by right). }
  clear Hrun. split; [done|]. split; [done|].
  apply coerced_Some in Es as Es'. destruct Es' as (srcA & -> & _).
  apply coerced_Some in Ed as Ed'. destruct Ed' as (dstA & -> & _).
  destruct (decide (GetPath (usdAttribute src)
                      ∈ GetConnections (stage w) (usdAttribute dst))) as [Hin|Hnot].
  - split.
    + by rewrite (createConnection_connected _ _ _ _ _ Es Ed Hin).
    + rewrite (deleteConnection_connected _ _ _ _ _ Es Ed Hin).
      unfold editStage. by destruct (DisconnectSource _ _ _).
  - split.
    + destruct (GetBaseNameAndType (name srcA)) as [srcBase srcDir] eqn:Hsn.
      destruct (GetBaseNameAndType (name dstA)) as [dstBase dstDir] eqn:Hdn.
      rewrite (createConnection_steps _ _ _ _ _ _ _ _ _ Es Ed Hnot Hsn Hdn).
      by destruct (destinationSocket _ _ _ _ _ _).
    + by rewrite (deleteConnection_not_connected _ _ _ _ _ Es Ed Hnot).
Qed.

(** X4. The material-terminal special case is only entered from a source
    that is not an Input.  With an Input source and a destination that is
    not an Input, the call ensures an Input socket on the source node and a
    plain Output socket on the destination node and connects them, whether
    or not the destination is a terminal of a material and whatever the
    registry knows: the registry is not consulted and no diagnostic is
    reported. *)
Theorem input_source_skips_terminal_case srcA dstA src dst w srcBase dstBase dstDir :
  coerced (Some srcA) = Some src → coerced (Some dstA) = Some dst →
  GetPath (usdAttribute src) ∉ GetConnections (stage w) (usdAttribute dst) →
  GetBaseNameAndType (name srcA) = (srcBase, Input) →
  GetBaseNameAndType (name dstA) = (dstBase, dstDir) → dstDir ≠ Input →
  let s := CreateInput (usdPrim src) srcBase (usdAttributeType src (stage w)) (stage w) in
  let d := CreateOutput (usdPrim dst) dstBase (usdAttributeType dst s.2) s.2 in
  let r := ConnectToSource (inr d.1) (inl s.1) d.2 in
  createConnection (Some srcA) (Some dstA) w = (r.1, mkWorld r.2 (diagnostics w)).
Proof.
  intros Hs Hd Hnot Hsn Hdn Hdir s d r. subst s d r.
  rewrite (createConnection_steps _ _ _ _ _ _ _ _ _ Hs Hd Hnot Hsn Hdn).
  cbn [sourceSocket fst snd]. unfold destinationSocket, terminalCase.
  rewrite (bool_decide_false (Input ≠ Input)) by (intros H; by apply H).
  cbn [andb]. by destruct dstDir.
Qed.

(** X11. The two guards are complementary.  On a pair that coerces, in any
    world, createConnection or deleteConnection returns false without
    touching anything: the first when the pair is connected, the second when
    it is not. *)
Theorem create_or_delete_is_refused srcA dstA src dst w :
  coerced (Some srcA) = Some src → coerced (Some dstA) = Some dst →
  ((GetPath (usdAttribute src) ∈ GetConnections (stage w) (usdAttribute dst))
   ∧ createConnection (Some srcA) (Some dstA) w = (false, w))
  ∨ ((GetPath (usdAttribute src) ∉ GetConnections (stage w) (usdAttribute dst))
     ∧ deleteConnection (Some srcA) (Some dstA) w = (false, w)).
Proof.
  intros Hs Hd.
  destruct (decide (GetPath (usdAttribute src)
                      ∈ GetConnections (stage w) (usdAttribute dst))) as [Hin|Hnot].
  - left. split; [done|]. by apply (createConnection_connected _ _ src dst).
  - right. split; [done|]. by apply (deleteConnection_not_connected _ _ src dst).
Qed.

End MoreContract.

(** ** Further properties of the handler on the reference implementation *)

Section RefMore.
Import Ref.
Context (usdRtid : Rtid) (registry : gmap string ShaderNode).

#[local] Hint Extern 0 UsdApi => exact (RefUsd usdRtid registry) : typeclass_instances.

Implicit Types (srcA dstA : UfeAttribute) (src dst : UsdAttribute) (w : World)
  (st : RefStage) (q : Path).

(** *** What each USD call leaves alone *)

Lemma getConnections_ensureAttr prim attrName ty st q :
  getConnections (ensureAttr prim attrName ty st).2 q = getConnections st q.
Proof.
  unfold getConnections. destruct (decide (q = (prim, attrName))) as [->|Hne].
  - unfold ensureAttr. destruct (primTypes st !! prim); [|done].
    destruct (attrSpecs st !! (prim, attrName)) eqn:E; cbn [snd attrSpecs].
    + by rewrite E.
    + by rewrite lookup_insert_eq.
  - by rewrite ensureAttr_other.
Qed.

Lemma connectToSource_primTypes dsock ssock st :
  primTypes (connectToSource dsock ssock st).2 = primTypes st.
Proof.
  unfold connectToSource.
  destruct (socketAttr dsock) as [d|]; [|done].
  destruct (socketAttr ssock) as [s|]; [|done].
  destruct (attrSpecs st !! d); [|done]. by destruct (attrSpecs st !! s).
Qed.

Lemma connectToSource_other dsock ssock st q :
  socketAttr dsock ≠ Some q →
  attrSpecs (connectToSource dsock ssock st).2 !! q = attrSpecs st !! q.
Proof.
  intros Hne. unfold connectToSource.
  destruct (socketAttr dsock) as [d|]; [|done].
  destruct (socketAttr ssock) as [s|]; [|done].
  destruct (attrSpecs st !! d); [|done].
  destruct (attrSpecs st !! s); [|done]. cbn.
  rewrite lookup_insert_ne; [done|]. congruence.
Qed.

(** A successful connect found both attributes on the stage and keeps the
    source there. *)
Lemma connectToSource_true_valid dsock ssock st st' :
  connectToSource dsock ssock st = (true, st') →
  ∃ d s spec,
    socketAttr dsock = Some d ∧ socketAttr ssock = Some s
    ∧ attrSpecs st' !! d = Some spec ∧ connectionPaths spec = [s]
    ∧ is_Some (attrSpecs st' !! s).
Proof.
  unfold connectToSource.
  destruct (socketAttr dsock) as [d|]; [|done].
  destruct (socketAttr ssock) as [s|]; [|done].
  destruct (attrSpecs st !! d) as [spec|] eqn:Ed; [|done].
  destruct (attrSpecs st !! s) as [spec'|] eqn:Es; [|done].
  intros [= <-]. exists d, s, (mkAttrSpec (typeName spec) (tokenValue spec) [s]).
  cbn. repeat split; [by rewrite lookup_insert_eq|].
  destruct (decide (d = s)) as [->|Hne].
  - by rewrite lookup_insert_eq.
  - by rewrite lookup_insert_ne, Es.
Qed.

Lemma sourceSocket_frame_prim src base dir st :
  primTypes (sourceSocket src base dir st).2 = primTypes st
  ∧ ∀ q, q.1 ≠ usdPrim src →
         attrSpecs (sourceSocket src base dir st).2 !! q = attrSpecs st !! q.
Proof.
  destruct dir; cbn; unfold createInput, createOutput;
    (split; [apply ensureAttr_primTypes|]);
    intros [p n] Hne; apply ensureAttr_other; cbn in Hne; congruence.
Qed.

Lemma sourceSocket_connections src base dir st q :
  getConnections (sourceSocket src base dir st).2 q = getConnections st q.
Proof.
  destruct dir; cbn; unfold createInput, createOutput;
    apply getConnections_ensureAttr.
Qed.

Lemma destinationSocket_frame_prim srcDir src dst base dir st d :
  destinationSocket srcDir src dst base dir st = Some d →
  primTypes d.2 = primTypes st
  ∧ (∀ q, q.1 ≠ usdPrim dst → attrSpecs d.2 !! q = attrSpecs st !! q)
  ∧ (∀ q, getConnections d.2 q = getConnections st q)
  ∧ (∀ b, socketAttr d.1 = Some b → b.1 = usdPrim dst).
Proof.
  unfold destinationSocket.
  destruct (terminalCase srcDir dir dst base st).
  - cbn. destruct (registry !! getShaderId st (usdPrim src)) as [def|]; [|done].
    intros [= <-]. cbn [fst snd socketAttr]. unfold createTerminalOutput. cbn.
    unfold createTerminal, createOutput.
    repeat case_decide;
      (split; [apply ensureAttr_primTypes|]);
      (split; [intros [p n] Hne; apply ensureAttr_other; cbn in Hne; congruence|]);
      (split; [intros q; apply getConnections_ensureAttr|]);
      by intros b [-> _]%ensureAttr_socket.
  - destruct dir; intros [= <-]; cbn [fst snd socketAttr]; cbn;
      unfold createInput, createOutput;
      (split; [apply ensureAttr_primTypes|]);
      (split; [intros [p n] Hne; apply ensureAttr_other; cbn in Hne; congruence|]);
      (split; [intros q; apply getConnections_ensureAttr|]);
      by intros b [-> _]%ensureAttr_socket.
Qed.

Lemma disconnectSource_frame shadingAttr sourceAttr st :
  primTypes (disconnectSource shadingAttr sourceAttr st).2 = primTypes st
  ∧ (∀ q, q ≠ shadingAttr →
          attrSpecs (disconnectSource shadingAttr sourceAttr st).2 !! q = attrSpecs st !! q)
  ∧ (is_Some (attrSpecs (disconnectSource shadingAttr sourceAttr st).2 !! shadingAttr)
     ↔ is_Some (attrSpecs st !! shadingAttr))
  ∧ getTypeName shadingAttr (disconnectSource shadingAttr sourceAttr st).2
    = getTypeName shadingAttr st
  ∧ (∀ p, p ∈ getConnections (disconnectSource shadingAttr sourceAttr st).2 shadingAttr →
          p ∈ getConnections st shadingAttr).
Proof.
  unfold disconnectSource, getTypeName, getConnections.
  destruct (attrSpecs st !! shadingAttr) as [spec|] eqn:E; cbn [snd attrSpecs primTypes].
  - split; [done|]. split; [intros q Hne; by rewrite lookup_insert_ne|].
    rewrite lookup_insert_eq. cbn. split; [done|]. split; [done|].
    intros p. destruct (attrSpecs st !! sourceAttr).
    + rewrite list_elem_of_filter. by intros [_ ?].
    + by intros ?%elem_of_nil.
  - rewrite E. done.
Qed.

(** *** The shapes a call can take *)

(** createConnection either leaves the stage alone (a coercion failed, or
    the pair is connected already), or stops after the source socket (the
    registry does not know the shader), or goes through the three steps. *)
Lemma createConnection_cases srcA dstA src dst w :
  asUsdAttribute srcA = Some src → asUsdAttribute dstA = Some dst →
  ((createConnection (Some srcA) (Some dstA) w).1 = false
   ∧ stage (createConnection (Some srcA) (Some dstA) w).2 = stage w)
  ∨ (∃ srcBase srcDir dstBase dstDir,
       getBaseNameAndType (name srcA) = (srcBase, srcDir)
       ∧ getBaseNameAndType (name dstA) = (dstBase, dstDir)
       ∧ (usdAttribute src ∉ getConnections (stage w) (usdAttribute dst))
       ∧ (((createConnection (Some srcA) (Some dstA) w).1 = false
           ∧ stage (createConnection (Some srcA) (Some dstA) w).2
             = (sourceSocket src srcBase srcDir (stage w)).2)
          ∨ (∃ d,
               destinationSocket srcDir src dst dstBase dstDir
                 (sourceSocket src srcBase srcDir (stage w)).2 = Some d
               ∧ createConnection (Some srcA) (Some dstA) w
                 = connectStep d.1 (sourceSocket src srcBase srcDir (stage w)).1 d.2 w))).
Proof.
  intros Hs Hd.
  destruct (coerced (Some srcA)) as [src'|] eqn:Es; cycle 1.
  { left. apply (refused_coercion_failure (Some srcA) (Some dstA) w). by left. }
  destruct (coerced (Some dstA)) as [dst'|] eqn:Ed; cycle 1.
  { left. apply (refused_coercion_failure (Some srcA) (Some dstA) w). by right. }
  assert (src' = src) as ->.
  { apply coerced_Some in Es as (? & [= <-] & _ & ? & _). congruence. }
  assert (dst' = dst) as ->.
  { apply coerced_Some in Ed as (? & [= <-] & _ & ? & _). congruence. }
  destruct (decide (usdAttribute src ∈ getConnections (stage w) (usdAttribute dst)))
    as [Hin|Hnot].
  { left. by rewrite (createConnection_connected _ _ _ _ _ Es Ed Hin). }
  right.
  destruct (getBaseNameAndType (name srcA)) as [srcBase srcDir] eqn:Hsn.
  destruct (getBaseNameAndType (name dstA)) as [dstBase dstDir] eqn:Hdn.
  exists srcBase, srcDir, dstBase, dstDir. repeat split; [done|].
  rewrite (createConnection_steps _ _ _ _ _ _ _ _ _ Es Ed Hnot Hsn Hdn).
  destruct (destinationSocket _ _ _ _ _ _) as [d|] eqn:Edst.
  - right. by exists d.
  - by left.
Qed.

(** X5. createConnection edits nothing but attributes of the two owning
    prims: it creates, removes and retypes no prim, and every attribute of
    another prim is exactly as it was, whatever the call returns. *)
Theorem createConnection_confined_to_owners srcA dstA src dst w q :
  asUsdAttribute srcA = Some src → asUsdAttribute dstA = Some dst →
  primTypes (stage (createConnection (Some srcA) (Some dstA) w).2) = primTypes (stage w)
  ∧ (q.1 ≠ usdPrim src → q.1 ≠ usdPrim dst →
     attrSpecs (stage (createConnection (Some srcA) (Some dstA) w).2) !! q
     = attrSpecs (stage w) !! q).
Proof.
  intros Hs Hd.
  destruct (createConnection_cases _ _ _ _ w Hs Hd)
    as [[_ ->]|(srcBase & srcDir & dstBase & dstDir & _ & _ & _ & Hrun)]; [done|].
  destruct (sourceSocket_frame_prim src srcBase srcDir (stage w)) as [Hp1 Ha1].
  destruct Hrun as [[_ ->]|(d & Hdst & ->)].
  - split; [done|]. intros Hq _. by apply Ha1.
  - destruct (destinationSocket_frame_prim _ _ _ _ _ _ _ Hdst) as (Hp2 & Ha2 & _ & Hb).
    unfold connectStep. cbn [snd stage]. split.
    + etrans; [apply connectToSource_primTypes|]. by etrans.
    + intros Hq1 Hq2. etrans; [apply connectToSource_other|].
      * intros Hb'. apply Hq2. by apply Hb.
      * etrans; [by apply Ha2 | by apply Ha1].
Qed.

(** An attribute spec is its type, its value and its connection list. *)
Lemma attrSpec_own_connections st q :
  attrSpecs st !! q
  = (λ spec, mkAttrSpec (typeName spec) (tokenValue spec) (getConnections st q))
      <$> attrSpecs st !! q.
Proof.
  unfold getConnections. destruct (attrSpecs st !! q) as [[ty v conns]|]; done.
Qed.

(** A disconnect rewrites the connection list of the destination and nothing
    else of its spec. *)
Lemma disconnectSource_spec shadingAttr sourceAttr st :
  attrSpecs (disconnectSource shadingAttr sourceAttr st).2 !! shadingAttr
  = (λ spec, mkAttrSpec (typeName spec) (tokenValue spec)
               (getConnections (disconnectSource shadingAttr sourceAttr st).2 shadingAttr))
      <$> attrSpecs st !! shadingAttr.
Proof.
  unfold disconnectSource, getConnections.
  destruct (attrSpecs st !! shadingAttr) as [spec|] eqn:E; cbn [snd attrSpecs].
  - by rewrite lookup_insert_eq.
  - by rewrite E.
Qed.

(** X6. deleteConnection edits nothing but the connection list of the
    destination attribute, which it can only shorten: prims and all other
    attributes are as they were, the destination attribute is neither
    created nor removed, its spec after the call is its spec before the call
    with the connection list replaced (same type, same authored value), and
    every upstream path left on it was there before. *)
Theorem deleteConnection_only_shortens srcA dstA src dst w :
  asUsdAttribute srcA = Some src → asUsdAttribute dstA = Some dst →
  let st' := stage (deleteConnection (Some srcA) (Some dstA) w).2 in
  primTypes st' = primTypes (stage w)
  ∧ (∀ q, q ≠ usdAttribute dst → attrSpecs st' !! q = attrSpecs (stage w) !! q)
  ∧ (is_Some (attrSpecs st' !! usdAttribute dst)
     ↔ is_Some (attrSpecs (stage w) !! usdAttribute dst))
  ∧ getTypeName (usdAttribute dst) st' = getTypeName (usdAttribute dst) (stage w)
  ∧ (∀ p, p ∈ getConnections st' (usdAttribute dst) →
          p ∈ getConnections (stage w) (usdAttribute dst))
  ∧ attrSpecs st' !! usdAttribute dst
    = (λ spec, mkAttrSpec (typeName spec) (tokenValue spec)
                 (getConnections st' (usdAttribute dst)))
        <$> attrSpecs (stage w) !! usdAttribute dst.
Proof.
  intros Hs Hd st'. subst st'.
  assert (stage (deleteConnection (Some srcA) (Some dstA) w).2 = stage w
          ∨ stage (deleteConnection (Some srcA) (Some dstA) w).2
            = (disconnectSource (usdAttribute dst) (usdAttribute src) (stage w)).2)
    as [->| ->].
  { destruct (coerced (Some srcA)) as [src'|] eqn:Es; cycle 1.
    { left. apply (refused_coercion_failure (Some srcA) (Some dstA) w). by left. }
    destruct (coerced (Some dstA)) as [dst'|] eqn:Ed; cycle 1.
    { left. apply (refused_coercion_failure (Some srcA) (Some dstA) w). by right. }
    assert (src' = src) as ->.
    { apply coerced_Some in Es as (? & [= <-] & _ & ? & _). congruence. }
    assert (dst' = dst) as ->.
    { apply coerced_Some in Ed as (? & [= <-] & _ & ? & _). congruence. }
    destruct (decide (usdAttribute src ∈ getConnections (stage w) (usdAttribute dst)))
      as [Hin|Hnot].
    - right. rewrite (deleteConnection_connected _ _ _ _ _ Es Ed Hin).
      unfold editStage. cbn. by destruct (disconnectSource _ _ _).
    - left. by rewrite (deleteConnection_not_connected _ _ _ _ _ Es Ed Hnot). }
  - do 5 (split; [done|]). apply attrSpec_own_connections.
  - destruct (disconnectSource_frame (usdAttribute dst) (usdAttribute src) (stage w))
      as (H1 & H2 & H3 & H4 & H5).
    do 5 (split; [done|]). apply disconnectSource_spec.
Qed.

(** X7. deleteConnection is idempotent: after a delete that returned true,
    the same delete returns false and changes nothing, diagnostics
    included. *)
Theorem deleteConnection_twice srcA dstA src dst w w' :
  asUsdAttribute srcA = Some src → asUsdAttribute dstA = Some dst →
  deleteConnection (Some srcA) (Some dstA) w = (true, w') →
  deleteConnection (Some srcA) (Some dstA) w' = (false, w').
Proof.
  intros Hs Hd Hrun.
  destruct (coerced_of_success _ _ _ _ _ _ _ _ Hs Hd (or_intror Hrun)) as [Es Ed].
  apply (deleteConnection_not_connected _ _ _ _ _ Es Ed).
  by apply (deleteConnection_then_not_connected _ _ _ _ _ _ _ _ Hs Hd Hrun).
Qed.

(** What a successful createConnection leaves: the source socket, on the
    source prim and still on the stage, is the one upstream path of a socket
    of the destination prim; upstream paths elsewhere and diagnostics are as
    before. *)
Lemma createConnection_success_shape srcA dstA src dst w w' :
  asUsdAttribute srcA = Some src → asUsdAttribute dstA = Some dst →
  createConnection (Some srcA) (Some dstA) w = (true, w') →
  ∃ a b spec,
    a = (usdPrim src,
         (if decide ((getBaseNameAndType (name srcA)).2 = Input)
          then "inputs:" else "outputs:") +:+ (getBaseNameAndType (name srcA)).1)
    ∧ b.1 = usdPrim dst
    ∧ attrSpecs (stage w') !! b = Some spec ∧ connectionPaths spec = [a]
    ∧ is_Some (attrSpecs (stage w') !! a)
    ∧ (∀ q, q ≠ b → getConnections (stage w') q = getConnections (stage w) q)
    ∧ (usdAttribute src ∉ getConnections (stage w) (usdAttribute dst))
    ∧ diagnostics w' = diagnostics w.
Proof.
  intros Hs Hd Hrun.
  destruct (createConnection_cases _ _ _ _ w Hs Hd)
    as [[Hf _]|(srcBase & srcDir & dstBase & dstDir & Hsn & Hdn & Hnot & Hsteps)].
  { by rewrite Hrun in Hf. }
  destruct Hsteps as [[Hf _]|(d & Hdst & Hstep)]; [by rewrite Hrun in Hf|].
  rewrite Hrun in Hstep. unfold connectStep in Hstep.
  destruct (ConnectToSource d.1 (sourceSocket src srcBase srcDir (stage w)).1 d.2)
    as [ok st'] eqn:E.
  cbn [fst snd] in Hstep. injection Hstep as <- ->.
  destruct (connectToSource_true_valid _ _ _ _ E) as (b & a & spec & Hb & Ha & Hspec & Hc & Hv).
  destruct (destinationSocket_frame_prim _ _ _ _ _ _ _ Hdst) as (_ & _ & Hconn & Hprim).
  exists a, b, spec. rewrite Hsn. cbn [fst snd stage diagnostics].
  repeat split; try done.
  - by apply sourceSocket_attr in Ha.
  - by apply Hprim.
  - intros q Hq.
    assert (getConnections st' q = getConnections d.2 q) as ->.
    { assert (st' = (connectToSource d.1
                       (sourceSocket src srcBase srcDir (stage w)).1 d.2).2) as ->
        by (symmetry; exact (f_equal snd E)).
      unfold getConnections. rewrite connectToSource_other; [done|]. congruence. }
    etrans; [apply Hconn|]. apply sourceSocket_connections.
Qed.

Lemma getConnections_Some st q spec :
  attrSpecs st !! q = Some spec → getConnections st q = connectionPaths spec.
Proof. intros H. unfold getConnections. by rewrite H. Qed.

Lemma disconnectSource_single shadingAttr sourceAttr st spec :
  attrSpecs st !! shadingAttr = Some spec →
  connectionPaths spec = [sourceAttr] →
  is_Some (attrSpecs st !! sourceAttr) →
  (disconnectSource shadingAttr sourceAttr st).1 = true
  ∧ getConnections (disconnectSource shadingAttr sourceAttr st).2 shadingAttr = [].
Proof.
  intros Hspec Hc [spec' Hv]. unfold disconnectSource. rewrite Hspec, Hv, Hc.
  split; [done|]. unfold getConnections. cbn [snd attrSpecs].
  rewrite lookup_insert_eq. cbn.
  by rewrite decide_False by (intros H; by apply H).
Qed.

Lemma string_length_app (s1 s2 : string) :
  String.length (s1 +:+ s2) = String.length s1 + String.length s2.
Proof.
  induction s1 as [|c s1 IH]; [done|].
  change (S (String.length (s1 +:+ s2)) = S (String.length s1 + String.length s2)).
  by rewrite IH.
Qed.

Lemma getBaseNameAndType_Invalid (fullName base : TfToken) :
  getBaseNameAndType fullName = (base, Invalid) → base = fullName.
Proof.
  unfold getBaseNameAndType.
  destruct (stripPrefix "inputs:" fullName); [done|].
  destruct (stripPrefix "outputs:" fullName); [done|]. by intros [= ->].
Qed.

(** X8. After a createConnection that returned true, the source socket is
    the only upstream path of the destination socket, the upstream paths of
    every other attribute are what they were before the call, and
    isConnected(a, b) answers true exactly when those two sockets are the
    attributes [a] and [b] that were passed in. *)
Theorem connected_after_create_iff_own_sockets srcA dstA src dst w w' :
  asUsdAttribute srcA = Some src → asUsdAttribute dstA = Some dst →
  createConnection (Some srcA) (Some dstA) w = (true, w') →
  ∃ a b,
    a = (usdPrim src,
         (if decide ((getBaseNameAndType (name srcA)).2 = Input)
          then "inputs:" else "outputs:") +:+ (getBaseNameAndType (name srcA)).1)
    ∧ b.1 = usdPrim dst
    ∧ getConnections (stage w') b = [a]
    ∧ (∀ q, q ≠ b → getConnections (stage w') q = getConnections (stage w) q)
    ∧ ((isConnected (usdAttribute src) (usdAttribute dst) w').1 = true
       ↔ a = usdAttribute src ∧ b = usdAttribute dst).
Proof.
  intros Hs Hd Hrun.
  destruct (createConnection_success_shape _ _ _ _ _ _ Hs Hd Hrun)
    as (a & b & spec & Ha & Hb & Hspec & Hc & _ & Hother & Hnot & _).
  assert (getConnections (stage w') b = [a]) as Hconn.
  { etrans; [exact (getConnections_Some _ _ _ Hspec) | done]. }
  exists a, b. do 4 (split; [done|]).
  rewrite isConnected_run. cbn [fst]. rewrite pathAmong_elem.
  change (usdAttribute src ∈ getConnections (stage w') (usdAttribute dst)
          ↔ a = usdAttribute src ∧ b = usdAttribute dst).
  split.
  - intros Hin. destruct (decide (usdAttribute dst = b)) as [Heq|Hne].
    + rewrite Heq, Hconn in Hin. by apply list_elem_of_singleton in Hin.
    + exfalso. apply Hnot. by rewrite (Hother _ Hne) in Hin.
  - intros [<- <-]. rewrite Hconn. apply list_elem_of_here.
Qed.

(** X9. A source whose name carries neither the inputs: nor the outputs:
    namespace is connected through a socket named outputs:<name>, which is
    another attribute: createConnection can return true, and isConnected on
    the pair that was passed in still answers false. *)
Theorem unprefixed_source_never_connected srcA dstA src dst w w' :
  asUsdAttribute srcA = Some src → asUsdAttribute dstA = Some dst →
  usdAttribute src = (usdPrim src, name srcA) →
  (getBaseNameAndType (name srcA)).2 = Invalid →
  createConnection (Some srcA) (Some dstA) w = (true, w') →
  (isConnected (usdAttribute src) (usdAttribute dst) w').1 = false
  ∧ is_Some (attrSpecs (stage w') !! (usdPrim src, "outputs:" +:+ name srcA)).
Proof.
  intros Hs Hd Hown Hdir Hrun.
  destruct (createConnection_success_shape _ _ _ _ _ _ Hs Hd Hrun)
    as (a & b & spec & Ha & Hb & Hspec & Hc & Hv & Hother & Hnot & _).
  destruct (getBaseNameAndType (name srcA)) as [base dir] eqn:Hn.
  cbn in Hdir. subst dir. apply getBaseNameAndType_Invalid in Hn as ->.
  cbn in Ha. subst a. split; [|done].
  rewrite isConnected_run. cbn [fst]. apply not_true_is_false.
  intros Hin%pathAmong_elem.
  change (usdAttribute src ∈ getConnections (stage w') (usdAttribute dst)) in Hin.
  destruct (decide (usdAttribute dst = b)) as [Heq|Hne].
  - rewrite Heq, (getConnections_Some _ _ _ Hspec), Hc in Hin.
    apply list_elem_of_singleton in Hin. rewrite Hown in Hin.
    injection Hin as Hin. apply (f_equal String.length) in Hin.
    rewrite string_length_app in Hin. cbn in Hin. lia.
  - apply Hnot. by rewrite (Hother _ Hne) in Hin.
Qed.

(** X10. Create, then delete.  When createConnection(a, b) returned true
    and left the pair connected, the deleteConnection(a, b) that follows
    returns true, reports nothing, and leaves [b] with no upstream path at
    all: the paths [b] had before the create are not restored. *)
Theorem create_then_delete_leaves_no_upstream srcA dstA src dst w w1 :
  asUsdAttribute srcA = Some src → asUsdAttribute dstA = Some dst →
  createConnection (Some srcA) (Some dstA) w = (true, w1) →
  (isConnected (usdAttribute src) (usdAttribute dst) w1).1 = true →
  (deleteConnection (Some srcA) (Some dstA) w1).1 = true
  ∧ getConnections (stage (deleteConnection (Some srcA) (Some dstA) w1).2)
      (usdAttribute dst) = []
  ∧ diagnostics (deleteConnection (Some srcA) (Some dstA) w1).2 = diagnostics w.
Proof.
  intros Hs Hd Hrun Hconnected.
  destruct (createConnection_success_shape _ _ _ _ _ _ Hs Hd Hrun)
    as (a & b & spec & _ & _ & Hspec & Hc & Hv & Hother & Hnot & Hdiag).
  rewrite isConnected_run in Hconnected. cbn [fst] in Hconnected.
  apply pathAmong_elem in Hconnected.
  change (usdAttribute src ∈ getConnections (stage w1) (usdAttribute dst)) in Hconnected.
  assert (usdAttribute dst = b) as Hb.
  { destruct (decide (usdAttribute dst = b)) as [Heq|Hne]; [done|].
    exfalso. apply Hnot. by rewrite (Hother _ Hne) in Hconnected. }
  assert (a = usdAttribute src) as ->.
  { rewrite Hb, (getConnections_Some _ _ _ Hspec), Hc in Hconnected.
    by apply list_elem_of_singleton in Hconnected. }
  subst b.
  destruct (coerced_of_success _ _ _ _ _ _ _ _ Hs Hd (or_introl Hrun)) as [Es Ed].
  rewrite (deleteConnection_connected _ _ _ _ _ Es Ed Hconnected).
  destruct (disconnectSource_single _ _ _ _ Hspec Hc Hv) as [Hok Hempty].
  unfold editStage.
  change (DisconnectSource (usdAttribute dst) (usdAttribute src) (stage w1))
    with (disconnectSource (usdAttribute dst) (usdAttribute src) (stage w1)).
  revert Hok Hempty.
  destruct (disconnectSource (usdAttribute dst) (usdAttribute src) (stage w1))
    as [ok st2].
  cbn [fst snd stage diagnostics]. by intros -> ->.
Qed.

(** *** Calling createConnection again *)

Lemma ensureAttr_again prim attrName ty0 ty st0 st a :
  (ensureAttr prim attrName ty0 st0).1 = Some a →
  primTypes st = primTypes st0 →
  is_Some (attrSpecs st !! a) →
  ensureAttr prim attrName ty st = (Some a, st).
Proof.
  unfold ensureAttr. intros H0 Hp [spec Ha]. rewrite Hp.
  destruct (primTypes st0 !! prim); [|done].
  assert (a = (prim, attrName)) as ->.
  { by destruct (attrSpecs st0 !! (prim, attrName)); injection H0 as <-. }
  by rewrite Ha.
Qed.

Lemma sourceSocket_again src base dir st0 st a :
  socketAttr (sourceSocket src base dir st0).1 = Some a →
  primTypes st = primTypes st0 →
  is_Some (attrSpecs st !! a) →
  sourceSocket src base dir st = ((sourceSocket src base dir st0).1, st).
Proof.
  intros H0 Hp Ha.
  destruct dir; cbn in *; unfold createInput, createOutput in *;
    by rewrite (ensureAttr_again _ _ _ _ _ _ _ H0 Hp Ha), H0.
Qed.

Lemma getShaderId_connectToSource dsock ssock st (node : string) :
  getShaderId (connectToSource dsock ssock st).2 node = getShaderId st node.
Proof.
  unfold connectToSource, getShaderId.
  destruct (socketAttr dsock) as [d|]; [|done].
  destruct (socketAttr ssock) as [s|]; [|done].
  destruct (attrSpecs st !! d) as [spec|] eqn:Ed; [|done].
  destruct (attrSpecs st !! s); [|done]. cbn [snd attrSpecs].
  destruct (decide (d = (node, "info:id"))) as [->|Hne].
  - by rewrite lookup_insert_eq, Ed.
  - by rewrite lookup_insert_ne.
Qed.

Lemma destinationSocket_shaderId srcDir src dst base dir st d (node : string) :
  destinationSocket srcDir src dst base dir st = Some d →
  getShaderId d.2 node = getShaderId st node.
Proof.
  unfold destinationSocket.
  destruct (terminalCase srcDir dir dst base st).
  - cbn. destruct (registry !! getShaderId st (usdPrim src)) as [def|]; [|done].
    intros [= <-]. cbn [snd]. unfold createTerminalOutput. cbn.
    unfold createTerminal, createOutput.
    repeat case_decide; by apply getShaderId_ensureAttr.
  - destruct dir; intros [= <-]; cbn; unfold createInput, createOutput;
      by apply getShaderId_ensureAttr.
Qed.

Lemma destinationSocket_again srcDir src dst base dir st0 st d b :
  destinationSocket srcDir src dst base dir st0 = Some d →
  socketAttr d.1 = Some b →
  primTypes st = primTypes st0 →
  getShaderId st (usdPrim src) = getShaderId st0 (usdPrim src) →
  is_Some (attrSpecs st !! b) →
  destinationSocket srcDir src dst base dir st = Some (d.1, st).
Proof.
  intros H0 Hb Hp Hid Ha. revert H0. unfold destinationSocket.
  assert (terminalCase srcDir dir dst base st = terminalCase srcDir dir dst base st0) as ->.
  { unfold terminalCase. cbn. unfold isMaterial. by rewrite Hp. }
  destruct (terminalCase srcDir dir dst base st0).
  - cbn. rewrite Hid.
    destruct (registry !! getShaderId st0 (usdPrim src)) as [def|]; [|done].
    intros [= <-]. cbn [fst socketAttr] in Hb. revert Hb.
    unfold createTerminalOutput. cbn. unfold createTerminal, createOutput.
    repeat case_decide; intros Hb;
      by rewrite (ensureAttr_again _ _ _ _ _ _ _ Hb Hp Ha), Hb.
  - destruct dir; intros [= <-]; cbn [fst socketAttr] in Hb; revert Hb; cbn;
      unfold createInput, createOutput; intros Hb;
      by rewrite (ensureAttr_again _ _ _ _ _ _ _ Hb Hp Ha), Hb.
Qed.

(** Connecting what is connected already changes nothing. *)
Lemma connectToSource_same dsock ssock st a b spec :
  socketAttr dsock = Some b → socketAttr ssock = Some a →
  attrSpecs st !! b = Some spec → connectionPaths spec = [a] →
  is_Some (attrSpecs st !! a) →
  connectToSource dsock ssock st = (true, st).
Proof.
  intros Hb Ha Hspec Hc [spec' Hv]. unfold connectToSource.
  rewrite Hb, Ha, Hspec, Hv. f_equal.
  destruct st as [prims attrs], spec as [ty v conns]. cbn in *. subst conns.
  f_equal. by apply insert_id.
Qed.

(** The sockets are the attributes themselves when the names carry their
    namespace, the views are the properties of those names, and the terminal
    case, if entered, resolves to the universal render context. *)
Lemma createConnection_own_sockets_connected
    srcA dstA src dst w w' srcBase srcDir dstBase dstDir :
  asUsdAttribute srcA = Some src → asUsdAttribute dstA = Some dst →
  usdAttribute src = (usdPrim src, name srcA) →
  usdAttribute dst = (usdPrim dst, name dstA) →
  getBaseNameAndType (name srcA) = (srcBase, srcDir) → srcDir ≠ Invalid →
  getBaseNameAndType (name dstA) = (dstBase, dstDir) → dstDir ≠ Invalid →
  (terminalCase srcDir dstDir dst dstBase (stage w) = true →
   ∀ def, registry !! getShaderId (stage w) (usdPrim src) = Some def →
          renderContextOf def = UsdShadeTokens.universalRenderContext) →
  createConnection (Some srcA) (Some dstA) w = (true, w') →
  usdAttribute src ∈ getConnections (stage w') (usdAttribute dst).
Proof.
  intros Hs Hd Hsrc Hdst Hsn Hsdir Hdn Hddir Hctx Hrun.
  destruct (createConnection_then_sockets_connected _ _ _ _ _ _ _ _ _ _ _ _
              Hs Hd Hsn Hdn Hrun) as (d & a & b & Hsock & Ha & Hb & Hconn).
  apply sourceSocket_attr in Ha.
  apply (destinationSocket_attr _ _ _ _ _ _ _ _ _ _ Hsock) in Hb.
  destruct (sourceSocket_frame _ _ src srcBase srcDir (stage w) (usdPrim dst)) as [Hm _].
  destruct (sourceSocket_frame _ _ src srcBase srcDir (stage w) (usdPrim src)) as [_ Hi].
  assert (terminalCase srcDir dstDir dst dstBase
            (sourceSocket src srcBase srcDir (stage w)).2
          = terminalCase srcDir dstDir dst dstBase (stage w)) as Ht.
  { unfold terminalCase. cbn. unfold IsMaterial in *. cbn in *. by rewrite Hm. }
  rewrite Ht in Hb.
  assert (a = usdAttribute src) as ->.
  { rewrite Ha, Hsrc. f_equal. destruct srcDir; [done| |].
    - symmetry. by apply getBaseNameAndType_Input.
    - symmetry. by apply getBaseNameAndType_Output. }
  assert (b = usdAttribute dst) as ->.
  { rewrite Hdst. destruct (terminalCase srcDir dstDir dst dstBase (stage w)) eqn:Et.
    - destruct Hb as (def & Hdef & ->).
      assert (registry !! getShaderId (stage w) (usdPrim src) = Some def) as Hdef'.
      { etrans; [|exact Hdef]. f_equal. symmetry. exact Hi. }
      rewrite (Hctx eq_refl def Hdef'), joinIdentifier_universal. f_equal.
      unfold terminalCase in Et.
      destruct dstDir; [done| by destruct (bool_decide (srcDir ≠ Input)) |].
      symmetry. by apply getBaseNameAndType_Output.
    - rewrite Hb. f_equal. destruct dstDir; [done| |].
      + symmetry. by apply getBaseNameAndType_Input.
      + symmetry. by apply getBaseNameAndType_Output. }
  rewrite Hconn. apply list_elem_of_here.
Qed.

(** The second of two consecutive calls leaves the world as the first left
    it, and answers false exactly when the guard finds the pair connected. *)
Lemma createConnection_second_run srcA dstA src dst w w1 :
  asUsdAttribute srcA = Some src → asUsdAttribute dstA = Some dst →
  createConnection (Some srcA) (Some dstA) w = (true, w1) →
  createConnection (Some srcA) (Some dstA) w1
  = (negb (bool_decide (usdAttribute src ∈ getConnections (stage w1) (usdAttribute dst))),
     w1).
Proof.
  intros Hs Hd Hrun.
  destruct (coerced_of_success _ _ _ _ _ _ _ _ Hs Hd (or_introl Hrun)) as [Es Ed].
  case_bool_decide as Hin; cbn [negb].
  { by apply (createConnection_connected _ _ src dst). }
  destruct (createConnection_cases _ _ _ _ w Hs Hd)
    as [[Hf _]|(srcBase & srcDir & dstBase & dstDir & Hsn & Hdn & _ & Hsteps)].
  { by rewrite Hrun in Hf. }
  destruct Hsteps as [[Hf _]|(d & Hdst & Hstep)]; [by rewrite Hrun in Hf|].
  rewrite Hrun in Hstep. unfold connectStep in Hstep.
  destruct (ConnectToSource d.1 (sourceSocket src srcBase srcDir (stage w)).1 d.2)
    as [ok st1] eqn:E.
  cbn [fst snd] in Hstep. injection Hstep as <- ->.
  destruct (connectToSource_true_valid _ _ _ _ E)
    as (b & a & spec & Hb & Ha & Hspec & Hc & Hv).
  assert (st1 = (connectToSource d.1
                   (sourceSocket src srcBase srcDir (stage w)).1 d.2).2) as Est
    by (symmetry; exact (f_equal snd E)).
  destruct (sourceSocket_frame_prim src srcBase srcDir (stage w)) as [Hp0 _].
  destruct (destinationSocket_frame_prim _ _ _ _ _ _ _ Hdst) as (Hp1 & _ & _ & _).
  assert (primTypes st1 = primTypes (sourceSocket src srcBase srcDir (stage w)).2) as Hp.
  { rewrite Est. etrans; [apply connectToSource_primTypes | exact Hp1]. }
  assert (getShaderId st1 (usdPrim src)
          = getShaderId (sourceSocket src srcBase srcDir (stage w)).2 (usdPrim src)) as Hid.
  { rewrite Est. etrans; [apply getShaderId_connectToSource|].
    by apply (destinationSocket_shaderId _ _ _ _ _ _ _ _ Hdst). }
  rewrite (createConnection_steps _ _ _ _ _ _ _ _ _ Es Ed Hin Hsn Hdn).
  cbn [stage].
  assert (sourceSocket src srcBase srcDir st1
          = ((sourceSocket src srcBase srcDir (stage w)).1, st1)) as ->.
  { apply (sourceSocket_again _ _ _ _ _ _ Ha); [|done]. by etrans. }
  cbn [fst snd].
  rewrite (destinationSocket_again _ _ _ _ _ _ _ _ _ Hdst Hb Hp Hid (ex_intro _ _ Hspec)).
  unfold connectStep. cbn [fst snd diagnostics].
  change (ConnectToSource d.1 (sourceSocket src srcBase srcDir (stage w)).1 st1)
    with (connectToSource d.1 (sourceSocket src srcBase srcDir (stage w)).1 st1).
  by rewrite (connectToSource_same _ _ _ _ _ _ Hb Ha Hspec Hc Hv).
Qed.

(** C3, amended.  When [a] is already among the upstream paths of [b],
    createConnection(a, b) returns false and changes nothing, for every
    implementation of the USD interface.  On the reference implementation, a
    second consecutive createConnection(a, b) after a first one that
    returned true leaves the stage and the diagnostics exactly as the first
    call left them; it returns false exactly when the first call left [a]
    among the upstream paths of [b], and it does so whenever the sockets the
    call connects are [a] and [b] themselves (the names carry the inputs: or
    outputs: namespace, each view is the property of that name on its prim,
    and the terminal case, if entered, resolves to the universal render
    context). *)
Theorem createConnection_twice :
  (∀ (api : UsdApi) (srcA dstA : UfeAttribute) (src dst : UsdAttribute) (w : World),
     coerced (Some srcA) = Some src → coerced (Some dstA) = Some dst →
     GetPath (usdAttribute src) ∈ GetConnections (stage w) (usdAttribute dst) →
     createConnection (Some srcA) (Some dstA) w = (false, w))
  ∧ (∀ srcA dstA src dst w w1,
       asUsdAttribute srcA = Some src → asUsdAttribute dstA = Some dst →
       createConnection (Some srcA) (Some dstA) w = (true, w1) →
       (createConnection (Some srcA) (Some dstA) w1).2 = w1
       ∧ ((createConnection (Some srcA) (Some dstA) w1).1 = false
          ↔ usdAttribute src ∈ getConnections (stage w1) (usdAttribute dst))
       ∧ ∀ srcBase srcDir dstBase dstDir,
           usdAttribute src = (usdPrim src, name srcA) →
           usdAttribute dst = (usdPrim dst, name dstA) →
           getBaseNameAndType (name srcA) = (srcBase, srcDir) → srcDir ≠ Invalid →
           getBaseNameAndType (name dstA) = (dstBase, dstDir) → dstDir ≠ Invalid →
           (terminalCase srcDir dstDir dst dstBase (stage w) = true →
            ∀ def, registry !! getShaderId (stage w) (usdPrim src) = Some def →
                   renderContextOf def = UsdShadeTokens.universalRenderContext) →
           createConnection (Some srcA) (Some dstA) w1 = (false, w1)).
Proof.
  split.
  - intros api srcA dstA src dst w Hs Hd Hin. by apply (createConnection_connected _ _ src dst).
  - intros srcA dstA src dst w w1 Hs Hd Hrun.
    rewrite (createConnection_second_run _ _ _ _ _ _ Hs Hd Hrun). cbn [fst snd].
    split; [done|]. split.
    + case_bool_decide; cbn; split; done.
    + intros srcBase srcDir dstBase dstDir Hsrc Hdst Hsn Hsdir Hdn Hddir Hctx.
      rewrite bool_decide_true; [done|].
      by apply (createConnection_own_sockets_connected _ _ _ _ _ _ _ _ _ _
                  Hs Hd Hsrc Hdst Hsn Hsdir Hdn Hddir Hctx Hrun).
Qed.

End RefMore.

(** ** Scenarios *)

Import Ref Scene.

Ltac by_compute := apply (bool_decide_unpack _); vm_compute; exact I.

(** A call that answered true, together with the world it left. *)
Lemma answered_true {A} (r : bool * A) : r.1 = true → r = (true, r.2).
Proof. destruct r as [b a]. cbn. by intros ->. Qed.

Ltac answers_true := apply answered_true; vm_compute; reflexivity.

(** C9. createConnection is not atomic.  Connecting the visibility of a
    mesh to the surface terminal of the material returns false, because the
    mesh carries no registered shader identifier, and leaves behind the
    output socket created for the source before the registry was asked.
    On every call that passes the guard, whatever attribute exists once a
    socket has been ensured still exists when the call returns. *)
Theorem createConnection_not_atomic :
  (let r := createConnection (Some (attr "/geo" "visibility"))
              (Some (attr "/mtl" "outputs:surface")) world0 in
   r.1 = false
   ∧ attrSpecs (stage world0) !! ("/geo", "outputs:visibility") = None
   ∧ attrSpecs (stage r.2) !! ("/geo", "outputs:visibility")
     = Some (mkAttrSpec "token" "" []))
  ∧ (∀ usdRtid registry
       (srcA dstA : @UfeAttribute (RefUsd usdRtid registry))
       (src dst : @UsdAttribute (RefUsd usdRtid registry))
       (w : @World (RefUsd usdRtid registry))
       srcBase srcDir dstBase dstDir (p : Path),
       coerced (Some srcA) = Some src → coerced (Some dstA) = Some dst →
       usdAttribute src ∉ getConnections (stage w) (usdAttribute dst) →
       getBaseNameAndType (name srcA) = (srcBase, srcDir) →
       getBaseNameAndType (name dstA) = (dstBase, dstDir) →
       let s := sourceSocket src srcBase srcDir (stage w) in
       (is_Some (attrSpecs s.2 !! p)
        ∨ ∃ d, destinationSocket srcDir src dst dstBase dstDir s.2 = Some d
               ∧ is_Some (attrSpecs d.2 !! p)) →
       is_Some (attrSpecs (stage (createConnection (Some srcA) (Some dstA) w).2) !! p)).
Proof.
  split.
  - repeat split; vm_compute; reflexivity.
  - intros. by eapply createConnection_keeps_sockets.
Qed.

(** The material-terminal scenario with an mdl shader: the call succeeds,
    the connection is recorded on outputs:mdl:surface, and isConnected on
    the pair passed to the call answers false. *)
Lemma create_mdl_terminal_not_connected :
  (createConnection (Some (attr "/mtl/mdl" "outputs:surface"))
     (Some (attr "/mtl" "outputs:surface")) world0).1 = true
  ∧ (isConnected (usdAttribute (usdAttr "/mtl/mdl" "outputs:surface"))
       (usdAttribute (usdAttr "/mtl" "outputs:surface"))
       (createConnection (Some (attr "/mtl/mdl" "outputs:surface"))
          (Some (attr "/mtl" "outputs:surface")) world0).2).1 = false.
Proof. repeat split; vm_compute; reflexivity. Qed.

(** The same scenario, called twice: the second call returns true. *)
Lemma create_mdl_terminal_twice :
  (createConnection (Some (attr "/mtl/mdl" "outputs:surface"))
     (Some (attr "/mtl" "outputs:surface")) world0).1 = true
  ∧ (createConnection (Some (attr "/mtl/mdl" "outputs:surface"))
       (Some (attr "/mtl" "outputs:surface"))
       (createConnection (Some (attr "/mtl/mdl" "outputs:surface"))
          (Some (attr "/mtl" "outputs:surface")) world0).2).1 = true.
Proof. repeat split; vm_compute; reflexivity. Qed.

(** A non-null reference with the USD tag whose object is of another
    class: the coercion fails. *)
Lemma coercion_fails_on_other_class :
  runTimeId (sceneItem (otherClassAttr "/mtl/S" "outputs:result")) = getUsdRunTimeId
  ∧ (usdAttrFromUfeAttr (Some (otherClassAttr "/mtl/S" "outputs:result")) world0).1 = None.
Proof. repeat split; vm_compute; reflexivity. Qed.

(** Both attributes are Outputs, the destination is the surface terminal
    of a material, the shader identifier of the source is not registered,
    and the pair is already connected: the call returns false and reports
    nothing. *)
Lemma unregistered_but_connected_is_silent :
  getBaseNameAndType (name (attr "/mtl/unknown" "outputs:surface")) = ("surface", Output)
  ∧ getBaseNameAndType (name (attr "/mtl" "outputs:surface")) = ("surface", Output)
  ∧ isMaterial wiredScene "/mtl" = true
  ∧ registry !! getShaderId wiredScene "/mtl/unknown" = None
  ∧ createConnection (Some (attr "/mtl/unknown" "outputs:surface"))
      (Some (attr "/mtl" "outputs:surface")) wiredWorld
    = (false, wiredWorld)
  ∧ diagnostics wiredWorld = [].
Proof. repeat split; vm_compute; reflexivity. Qed.

(** *** The contract at work on the scene *)

Lemma connection_round_trip_witness :
  (isConnected ("/mtl/S", "outputs:result") ("/mtl/D", "inputs:value") world1).1 = true
  ∧ (isConnected ("/mtl/S", "outputs:result") ("/mtl/D", "inputs:value")
       (deleteConnection (Some S_result) (Some D_value) world1).2).1 = false.
Proof.
  split.
  - apply (proj2 (connection_round_trip usdRtId registry S_result D_value
                    (usdAttr "/mtl/S" "outputs:result") (usdAttr "/mtl/D" "inputs:value")
                    world0 world1 eq_refl eq_refl)
             "result" Output "value" Input); try reflexivity; discriminate.
  - apply (proj1 (connection_round_trip usdRtId registry S_result D_value
                    (usdAttr "/mtl/S" "outputs:result") (usdAttr "/mtl/D" "inputs:value")
                    world1 (deleteConnection (Some S_result) (Some D_value) world1).2
                    eq_refl eq_refl)).
    answers_true.
Defined.

Lemma createConnection_twice_witness :
  createConnection (Some unknown_surface) (Some mtl_surface) wiredWorld
  = (false, wiredWorld)
  ∧ createConnection (Some S_result) (Some D_value) world1 = (false, world1)
  ∧ (createConnection (Some mdl_surface) (Some mtl_surface)
       (createConnection (Some mdl_surface) (Some mtl_surface) world0).2).2
    = (createConnection (Some mdl_surface) (Some mtl_surface) world0).2.
Proof.
  split; [|split].
  - apply (proj1 (createConnection_twice usdRtId registry) usd
             unknown_surface mtl_surface
             (usdAttr "/mtl/unknown" "outputs:surface") (usdAttr "/mtl" "outputs:surface")
             wiredWorld eq_refl eq_refl).
    by_compute.
  - assert (createConnection (Some S_result) (Some D_value) world0 = (true, world1))
      as Hrun by answers_true.
    apply (proj2 (proj2 (proj2 (createConnection_twice usdRtId registry)
                           S_result D_value
                           (usdAttr "/mtl/S" "outputs:result")
                           (usdAttr "/mtl/D" "inputs:value")
                           world0 world1 eq_refl eq_refl Hrun))
             "result" Output "value" Input); try reflexivity; discriminate.
  - apply (proj1 (proj2 (createConnection_twice usdRtId registry)
                    mdl_surface mtl_surface
                    (usdAttr "/mtl/mdl" "outputs:surface")
                    (usdAttr "/mtl" "outputs:surface")
                    world0 (createConnection (Some mdl_surface) (Some mtl_surface) world0).2
                    eq_refl eq_refl ltac:(answers_true))).
Defined.

Lemma deleteConnection_not_connected_refused_witness :
  (deleteConnection (Some S_result) (Some D_value) world0).1 = false
  ∧ stage (deleteConnection (Some S_result) (Some D_value) world0).2 = stage world0.
Proof.
  apply (deleteConnection_not_connected_refused S_result D_value
           (usdAttr "/mtl/S" "outputs:result") (usdAttr "/mtl/D" "inputs:value")
           world0 eq_refl eq_refl).
  by_compute.
Defined.

Lemma coercion_contract_witness :
  usdAttrFromUfeAttr (Some S_result) world0
  = (Some (usdAttr "/mtl/S" "outputs:result"), world0)
  ∧ refused world0 (createConnection None (Some D_value) world0)
  ∧ refused world0 (deleteConnection (Some S_result) (Some (mayaAttr "|pCube1" "tx")) world0).
Proof.
  split; [|split].
  - apply (proj1 coercion_contract S_result); reflexivity.
  - apply (proj2 coercion_contract None world0 I).
  - apply (proj2 coercion_contract (Some (mayaAttr "|pCube1" "tx")) world0).
    vm_compute. discriminate.
Defined.

Lemma coercion_other_class_silent_witness :
  usdAttrFromUfeAttr (Some (otherClassAttr "/mtl/S" "outputs:result")) world0
  = (None, world0)
  ∧ refused world0
      (createConnection (Some (otherClassAttr "/mtl/S" "outputs:result"))
         (Some D_value) world0).
Proof.
  destruct (coercion_other_class_silent (otherClassAttr "/mtl/S" "outputs:result")
              world0 eq_refl eq_refl) as [Hc Hops].
  split; [exact Hc|]. apply (Hops (Some D_value)).
Defined.

Lemma terminal_render_context_witness :
  let s := CreateOutput "/mtl/mdl" "surface"
             (usdAttributeType (usdAttr "/mtl/mdl" "outputs:surface") (stage world0))
             (stage world0) in
  ∃ renderContext,
    renderContext = "mdl"
    ∧ ∃ d, d = CreateSurfaceOutput "/mtl" renderContext s.2
           ∧ createConnection (Some mdl_surface) (Some mtl_surface) world0
             = connectStep (inr d.1) (inr s.1) d.2 world0.
Proof.
  intros s.
  destruct (terminal_render_context mdl_surface mtl_surface
              (usdAttr "/mtl/mdl" "outputs:surface") (usdAttr "/mtl" "outputs:surface")
              world0 "surface" Output "surface" Output (mkShaderNode "mdl"))
    as (rc & _ & _ & Hmdl & d & Hsurface & _ & _ & Hrun);
    try reflexivity; try discriminate; try by_compute.
  exists rc. split; [by apply Hmdl|]. exists d. split; [by apply Hsurface | exact Hrun].
Defined.

Lemma unregistered_shader_refused_witness :
  (createConnection (Some unknown_surface) (Some mtl_surface) world0).1 = false
  ∧ diagnostics (createConnection (Some unknown_surface) (Some mtl_surface) world0).2
    = ["Could not find node definition 'nowhere' for node '/mtl/unknown'."]
  ∧ createConnection (Some unknown_surface) (Some mtl_surface) wiredWorld
    = (false, wiredWorld).
Proof.
  split; [|split].
  - rewrite (proj1 (unregistered_shader_refused unknown_surface mtl_surface
                      (usdAttr "/mtl/unknown" "outputs:surface")
                      (usdAttr "/mtl" "outputs:surface")
                      world0 "surface" "surface"
                      eq_refl eq_refl eq_refl eq_refl eq_refl eq_refl eq_refl));
      [reflexivity | by_compute].
  - rewrite (proj1 (unregistered_shader_refused unknown_surface mtl_surface
                      (usdAttr "/mtl/unknown" "outputs:surface")
                      (usdAttr "/mtl" "outputs:surface")
                      world0 "surface" "surface"
                      eq_refl eq_refl eq_refl eq_refl eq_refl eq_refl eq_refl));
      [reflexivity | by_compute].
  - apply (proj2 (unregistered_shader_refused unknown_surface mtl_surface
                    (usdAttr "/mtl/unknown" "outputs:surface")
                    (usdAttr "/mtl" "outputs:surface")
                    wiredWorld "surface" "surface"
                    eq_refl eq_refl eq_refl eq_refl eq_refl eq_refl eq_refl)).
    by_compute.
Defined.

Lemma createConnection_returns_connect_result_witness :
  let s := sourceSocket (usdAttr "/mtl/S" "outputs:result") "result" Output (stage world0) in
  ∃ d,
    destinationSocket Output (usdAttr "/mtl/S" "outputs:result")
      (usdAttr "/mtl/D" "inputs:value") "value" Input s.2 = Some d
    ∧ createConnection (Some S_result) (Some D_value) world0
      = ((ConnectToSource d.1 s.1 d.2).1,
         mkWorld (ConnectToSource d.1 s.1 d.2).2 (diagnostics world0)).
Proof.
  apply (createConnection_returns_connect_result S_result D_value
           (usdAttr "/mtl/S" "outputs:result") (usdAttr "/mtl/D" "inputs:value")
           world0 "result" Output "value" Input eq_refl eq_refl);
    [by_compute | reflexivity | reflexivity | discriminate].
Defined.

Lemma createConnection_not_atomic_witness :
  is_Some
    (attrSpecs (stage (createConnection (Some geo_visibility) (Some mtl_surface) world0).2)
     !! ("/geo", "outputs:visibility")).
Proof.
  apply (proj2 createConnection_not_atomic usdRtId registry geo_visibility mtl_surface
           (usdAttr "/geo" "visibility") (usdAttr "/mtl" "outputs:surface")
           world0 "visibility" Invalid "surface" Output ("/geo", "outputs:visibility")
           eq_refl eq_refl);
    [by_compute | reflexivity | reflexivity |].
  left. exists (mkAttrSpec "token" "" []). vm_compute. reflexivity.
Defined.

(** *** The further properties at work on the scene *)

Lemma failed_coercions_all_reported_witness :
  createConnection None (Some (mayaAttr "|pCube1" "tx")) world0
  = (false,
     mkWorld (stage world0)
       (diagnostics world0 ++ coercionDiagnostic None
          ++ coercionDiagnostic (Some (mayaAttr "|pCube1" "tx"))))
  ∧ coercionDiagnostic None ++ coercionDiagnostic (Some (mayaAttr "|pCube1" "tx"))
    = ["Invalid attribute.";
       "Invalid runtime identifier for the attribute 'tx' in the node '|pCube1'."].
Proof.
  split; [|reflexivity].
  apply (proj1 (failed_coercions_all_reported None (Some (mayaAttr "|pCube1" "tx"))
                  world0 (or_introl eq_refl))).
Defined.

Lemma deleteConnection_returns_disconnect_result_witness :
  let r := DisconnectSource ("/mtl/D", "inputs:value") ("/mtl/S", "outputs:result")
             (stage world1) in
  deleteConnection (Some S_result) (Some D_value) world1
  = (r.1, mkWorld r.2 (diagnostics world1)).
Proof.
  apply (deleteConnection_returns_disconnect_result S_result D_value
           (usdAttr "/mtl/S" "outputs:result") (usdAttr "/mtl/D" "inputs:value")
           world1 eq_refl eq_refl).
  by_compute.
Defined.

Lemma success_is_silent_witness :
  diagnostics (createConnection (Some S_result) (Some D_value) world0).2
  = diagnostics world0.
Proof.
  assert ((createConnection (Some S_result) (Some D_value) world0).1 = true) as Hrun
    by (vm_compute; reflexivity).
  destruct (success_is_silent (Some S_result) (Some D_value) world0 (or_introl Hrun))
    as (_ & _ & Hcreate & _).
  exact (Hcreate Hrun).
Defined.

Lemma input_source_skips_terminal_case_witness :
  let s := CreateInput "/mtl/D" "value"
             (usdAttributeType (usdAttr "/mtl/D" "inputs:value") (stage world0))
             (stage world0) in
  let d := CreateOutput "/mtl" "surface"
             (usdAttributeType (usdAttr "/mtl" "outputs:surface") s.2) s.2 in
  let r := ConnectToSource (inr d.1) (inl s.1) d.2 in
  isMaterial scene "/mtl" = true
  ∧ createConnection (Some D_value) (Some mtl_surface) world0
    = (r.1, mkWorld r.2 (diagnostics world0)).
Proof.
  split; [reflexivity|].
  apply (input_source_skips_terminal_case D_value mtl_surface
           (usdAttr "/mtl/D" "inputs:value") (usdAttr "/mtl" "outputs:surface")
           world0 "value" "surface" Output eq_refl eq_refl);
    [by_compute | reflexivity | reflexivity | discriminate].
Defined.

Lemma create_or_delete_is_refused_witness :
  deleteConnection (Some S_result) (Some D_value) world0 = (false, world0)
  ∧ createConnection (Some S_result) (Some D_value) world1 = (false, world1).
Proof.
  split.
  - destruct (create_or_delete_is_refused S_result D_value
                (usdAttr "/mtl/S" "outputs:result") (usdAttr "/mtl/D" "inputs:value")
                world0 eq_refl eq_refl) as [[Hin _]|[_ H]]; [|exact H].
    exfalso. revert Hin. by_compute.
  - destruct (create_or_delete_is_refused S_result D_value
                (usdAttr "/mtl/S" "outputs:result") (usdAttr "/mtl/D" "inputs:value")
                world1 eq_refl eq_refl) as [[_ H]|[Hnot _]]; [exact H|].
    exfalso. apply Hnot. by_compute.
Defined.

Lemma createConnection_confined_to_owners_witness :
  attrSpecs (stage (createConnection (Some S_result) (Some D_value) world0).2)
  !! ("/geo", "visibility")
  = attrSpecs (stage world0) !! ("/geo", "visibility").
Proof.
  apply (proj2 (createConnection_confined_to_owners usdRtId registry S_result D_value
                  (usdAttr "/mtl/S" "outputs:result") (usdAttr "/mtl/D" "inputs:value")
                  world0 ("/geo", "visibility") eq_refl eq_refl));
    discriminate.
Defined.

Lemma deleteConnection_only_shortens_witness :
  primTypes (stage (deleteConnection (Some S_result) (Some D_value) world1).2)
  = primTypes (stage world1)
  ∧ getTypeName ("/mtl/D", "inputs:value")
      (stage (deleteConnection (Some S_result) (Some D_value) world1).2)
    = getTypeName ("/mtl/D", "inputs:value") (stage world1)
  ∧ attrSpecs (stage (deleteConnection (Some S_result) (Some D_value) world1).2)
    !! ("/mtl/D", "inputs:value")
    = (λ spec, mkAttrSpec (typeName spec) (tokenValue spec)
                 (getConnections
                    (stage (deleteConnection (Some S_result) (Some D_value) world1).2)
                    ("/mtl/D", "inputs:value")))
        <$> attrSpecs (stage world1) !! ("/mtl/D", "inputs:value").
Proof.
  destruct (deleteConnection_only_shortens usdRtId registry S_result D_value
              (usdAttr "/mtl/S" "outputs:result") (usdAttr "/mtl/D" "inputs:value")
              world1 eq_refl eq_refl) as (Hprims & _ & _ & Htype & _ & Hspec).
  split; [exact Hprims | split; [exact Htype | exact Hspec]].
Defined.

Lemma deleteConnection_twice_witness :
  deleteConnection (Some S_result) (Some D_value)
    (deleteConnection (Some S_result) (Some D_value) world1).2
  = (false, (deleteConnection (Some S_result) (Some D_value) world1).2).
Proof.
  apply (deleteConnection_twice usdRtId registry S_result D_value
           (usdAttr "/mtl/S" "outputs:result") (usdAttr "/mtl/D" "inputs:value")
           world1 _ eq_refl eq_refl).
  answers_true.
Defined.

Lemma connected_after_create_iff_own_sockets_witness :
  ∃ a b,
    b.1 = "/mtl"
    ∧ getConnections
        (stage (createConnection (Some mdl_surface) (Some mtl_surface) world0).2) b
      = [a].
Proof.
  destruct (connected_after_create_iff_own_sockets usdRtId registry
              mdl_surface mtl_surface
              (usdAttr "/mtl/mdl" "outputs:surface") (usdAttr "/mtl" "outputs:surface")
              world0 (createConnection (Some mdl_surface) (Some mtl_surface) world0).2
              eq_refl eq_refl)
    as (a & b & _ & Hb & Hconn & _); [answers_true|].
  exists a, b. split; [exact Hb | exact Hconn].
Defined.

Lemma unprefixed_source_never_connected_witness :
  (createConnection (Some geo_visibility) (Some D_value) world0).1 = true
  ∧ (isConnected ("/geo", "visibility") ("/mtl/D", "inputs:value")
       (createConnection (Some geo_visibility) (Some D_value) world0).2).1 = false.
Proof.
  split; [vm_compute; reflexivity|].
  apply (unprefixed_source_never_connected usdRtId registry geo_visibility D_value
           (usdAttr "/geo" "visibility") (usdAttr "/mtl/D" "inputs:value")
           world0 (createConnection (Some geo_visibility) (Some D_value) world0).2
           eq_refl eq_refl eq_refl eq_refl).
  answers_true.
Defined.

Lemma create_then_delete_leaves_no_upstream_witness :
  (deleteConnection (Some S_result) (Some D_value) world1).1 = true
  ∧ getConnections (stage (deleteConnection (Some S_result) (Some D_value) world1).2)
      ("/mtl/D", "inputs:value") = []
  ∧ diagnostics (deleteConnection (Some S_result) (Some D_value) world1).2
    = diagnostics world0.
Proof.
  apply (create_then_delete_leaves_no_upstream usdRtId registry S_result D_value
           (usdAttr "/mtl/S" "outputs:result") (usdAttr "/mtl/D" "inputs:value")
           world0 world1 eq_refl eq_refl).
  - answers_true.
  - vm_compute. reflexivity.
Defined.
